(** * dagster-databricks: the PySpark step launcher

    A shallow embedding of
    [dagster_databricks/databricks_pyspark_step_launcher.py]:
    the event recovery read cycle ([get_new_events]), the two-phase
    polling generator ([step_events_iterator]), the launch with its
    guaranteed log retrieval ([launch_step]), the two DBFS path
    renderings, the storage setup of [DatabricksConfig] and the
    constructor checks of [DatabricksPySparkStepLauncher].

    Effects are explicit.  A computation reads the outside world (the
    DBFS client, the job service, the clock) through oracles indexed by
    call number, threads the call counters, and writes the list of its
    observable actions (log calls, calls to the collaborators, readings
    of the clock, yielded events). *)

From Stdlib Require Import ZArith QArith String Ascii List Bool Lia.
From stdpp Require Import base gmap strings list.
Import ListNotations.

Local Open Scope string_scope.
Local Open Scope list_scope.
Local Open Scope Z_scope.

(** ** Exceptions *)

(** The body of the response an [HTTPError] carries, as
    [e.response.json()] sees it: a JSON object, of which the handler of
    [get_new_events] reads the entry ["error_code"] ([None] when the
    object has none, or one that is no string); another JSON value,
    which has no [get]; or text that is not JSON. *)
Inductive response : Type :=
| JsonObject (error_code : option string)
| JsonValue
| NotJson.

(** The exception classes the module raises or catches.  [HTTPError]
    is that of [requests] and carries its response;
    [JSONDecodeError] and [AttributeError] are what
    [e.response.json().get(...)] raises on a body that is not JSON or
    not a JSON object. *)
Inductive exn : Type :=
| HTTPError (body : response)
| JSONDecodeError
| AttributeError
| DatabricksError (msg : string)
| CheckError (msg : string)
| KeyError (key : string)
| SecretError (scope key : string)
| DagsterExecutionInterruptedError
| Exception (msg : string).

Definition RESOURCE_DOES_NOT_EXIST : string := "RESOURCE_DOES_NOT_EXIST".

(** [isinstance(e, Exception)].  Every class above derives from
    [Exception] but [DagsterExecutionInterruptedError], which derives
    from [BaseException] as [KeyboardInterrupt] does. *)
Definition is_Exception (e : exn) : bool :=
  match e with
  | DagsterExecutionInterruptedError => false
  | _ => true
  end.

(** ** Log records *)

(** A log record as pickled by the remote side; [dagster_event] is the
    entry ["dagster_event"] of the record's [DAGSTER_META_KEY]
    dictionary, [msg] stands for the rest of the record. *)
Record LogRecord (P : Type) : Type := mkLogRecord {
  msg : string;
  dagster_event : P
}.
Arguments mkLogRecord {P} _ _.
Arguments msg {P} _.
Arguments dagster_event {P} _.

(** Modelled from the spec: [databricks_step_main.LOGS_COMPLETE] is not
    among the sources; an entry of the remote event log is "either an
    opaque completion sentinel or a wrapped domain event plus
    metadata".  The payload of a wrapped record is still serialized. *)
Inductive remote_record : Type :=
| LOGS_COMPLETE
| Wrapped (record : LogRecord string).

Definition is_LOGS_COMPLETE (r : remote_record) : bool :=
  match r with LOGS_COMPLETE => true | Wrapped _ => false end.

(** ** Observable actions *)

Inductive log_call (Ev : Type) : Type :=
| LogInfoWaitingForRun (databricks_run_id : Z)
| LogDebugWaitingSeconds
| LogInfoRunCompleted (databricks_run_id : Z)
| LogInfoWaitingForLogs (databricks_run_id : Z)
| LogWarnReadException (err : exn)
| LogInfo (text : string)
| EmitDagsterRecord (record : LogRecord (option Ev)).
Arguments LogInfoWaitingForRun {Ev} _.
Arguments LogDebugWaitingSeconds {Ev}.
Arguments LogInfoRunCompleted {Ev} _.
Arguments LogInfoWaitingForLogs {Ev} _.
Arguments LogWarnReadException {Ev} _.
Arguments LogInfo {Ev} _.
Arguments EmitDagsterRecord {Ev} _.

Inductive action (Ev : Type) : Type :=
| ALog (c : log_call Ev)
| ATime
| ASleep (seconds : Q)
| APollRunState
| AReadFile (path : string)
| APutFile (path : string)
| ASubmitRun
| ARetrieveLogs (databricks_run_id : Z)
| AYield (event : Ev).
Arguments ALog {Ev} _.
Arguments ATime {Ev}.
Arguments ASleep {Ev} _.
Arguments APollRunState {Ev}.
Arguments AReadFile {Ev} _.
Arguments APutFile {Ev} _.
Arguments ASubmitRun {Ev}.
Arguments ARetrieveLogs {Ev} _.
Arguments AYield {Ev} _.

(** ** The outside world *)

(** Outcome of a call that returns an [A] or raises. *)
Inductive outcome (A : Type) : Type :=
| Returns (a : A)
| Raises (e : exn).
Arguments Returns {A} _.
Arguments Raises {A} _.

(** [response.json().get("error_code")] *)
Definition response_error_code (body : response) : outcome (option string) :=
  match body with
  | JsonObject error_code => Returns error_code
  | JsonValue => Raises AttributeError
  | NotJson => Raises JSONDecodeError
  end.

(** [error_code == "RESOURCE_DOES_NOT_EXIST"] *)
Definition is_RESOURCE_DOES_NOT_EXIST (error_code : option string) : bool :=
  match error_code with
  | Some code => String.eqb code RESOURCE_DOES_NOT_EXIST
  | None => false
  end.

(** The collaborators of the launcher, none of which is among the
    sources: the DBFS client, [poll_run_state], [submit_run] and
    [retrieve_logs_for_run_id] of [dagster_databricks.databricks], the
    clock, and a sleep that [raise_execution_interrupts] may abort.
    Each oracle gives the outcome of the i-th call.  Clock readings are
    rationals, in seconds; the logs retrieved are the pair
    [(stdout, stderr)], an absent stream being the empty string. *)
Record world : Type := mkWorld {
  read_file : nat -> outcome (list Byte.byte);
  put_file : nat -> outcome unit;
  poll_run_state : nat -> outcome bool;
  submit_run : outcome Z;
  retrieve_logs_for_run_id : outcome (option (string * string));
  time_time : nat -> Q;
  time_sleep : nat -> outcome unit
}.

(** How many calls of each kind have been made. *)
Record counters : Type := mkCounters {
  n_read : nat;
  n_put : nat;
  n_poll : nat;
  n_time : nat;
  n_sleep : nat
}.

Definition counters0 : counters := mkCounters 0 0 0 0 0.

(** ** Computations *)

(** [Diverge] is the result of a loop that is still running when its
    fuel is spent. *)
Inductive result (A : Type) : Type :=
| Ret (a : A)
| Raise (e : exn)
| Diverge.
Arguments Ret {A} _.
Arguments Raise {A} _.
Arguments Diverge {A}.

Section Computations.
Context {Ev : Type}.

Definition comp (A : Type) : Type :=
  counters -> result A * counters * list (action Ev).

Definition ret {A} (a : A) : comp A := fun c => (Ret a, c, []).

Definition bind {A B} (m : comp A) (f : A -> comp B) : comp B :=
  fun c =>
    match m c with
    | (Ret a, c1, t1) =>
        match f a c1 with
        | (r, c2, t2) => (r, c2, t1 ++ t2)
        end
    | (Raise e, c1, t1) => (Raise e, c1, t1)
    | (Diverge, c1, t1) => (Diverge, c1, t1)
    end.

Definition raise {A} (e : exn) : comp A := fun c => (Raise e, c, []).

Definition diverge {A} : comp A := fun c => (Diverge, c, []).

Definition tell (a : action Ev) : comp unit := fun c => (Ret tt, c, [a]).

Definition log (l : log_call Ev) : comp unit := tell (ALog l).

(** The outcome of a call that leaves no trace. *)
Definition of_outcome {A} (o : outcome A) : comp A :=
  fun c =>
    match o with
    | Returns a => (Ret a, c, [])
    | Raises e => (Raise e, c, [])
    end.

(** [try: m except ...].  [h e] is the body of the first [except]
    clause whose class [e] belongs to, and [None] when there is no such
    clause: [e] then leaves the statement.  So does an exception that
    the body of a clause raises. *)
Definition try_except {A} (m : comp A) (h : exn -> option (comp A))
    : comp A :=
  fun c =>
    match m c with
    | (Raise e, c1, t1) =>
        match h e with
        | Some handler =>
            match handler c1 with
            | (r, c2, t2) => (r, c2, t1 ++ t2)
            end
        | None => (Raise e, c1, t1)
        end
    | other => other
    end.

(** [try: m finally: f].  The [finally] block runs however [m] ends;
    an exception of the [finally] block replaces the pending one. *)
Definition try_finally {A B} (m : comp A) (f : comp B) : comp (A * B) :=
  fun c =>
    match m c with
    | (Diverge, c1, t1) => (Diverge, c1, t1)
    | (r, c1, t1) =>
        match f c1 with
        | (Ret b, c2, t2) =>
            match r with
            | Ret a => (Ret (a, b), c2, t1 ++ t2)
            | Raise e => (Raise e, c2, t1 ++ t2)
            | Diverge => (Diverge, c2, t1 ++ t2)
            end
        | (Raise e', c2, t2) => (Raise e', c2, t1 ++ t2)
        | (Diverge, c2, t2) => (Diverge, c2, t1 ++ t2)
        end
    end.

(** [for event in events: yield event] *)
Fixpoint yield_all (events : list Ev) : comp unit :=
  match events with
  | [] => ret tt
  | event :: rest => bind (tell (AYield event)) (fun _ => yield_all rest)
  end.
End Computations.
Arguments comp Ev A : clear implicits.

#[global] Instance comp_ret {Ev} : MRet (comp Ev) := fun A a => ret a.
#[global] Instance comp_bind {Ev} : MBind (comp Ev) := fun A B f m => bind m f.
#[global] Instance comp_throw {Ev} : MThrow exn (comp Ev) := fun A e => raise e.

(** ** Strings *)

(** [s.replace(old, new)] for a pattern [old] of one character. *)
Fixpoint str_replace (old : ascii) (new : string) (s : string) : string :=
  match s with
  | EmptyString => EmptyString
  | String c rest =>
      if Ascii.eqb c old then new ++ str_replace old new rest
      else String c (str_replace old new rest)
  end.

(** [s.rfind(sep)]: the index of the last [sep] in [s], or [-1].  [i] is
    the index of the head of [s], [last] the last index found so far. *)
Fixpoint str_rfind_from (sep : ascii) (s : string) (i last : Z) : Z :=
  match s with
  | EmptyString => last
  | String c rest =>
      str_rfind_from sep rest (i + 1) (if Ascii.eqb c sep then i else last)
  end.

Definition str_rfind (sep : ascii) (s : string) : Z :=
  str_rfind_from sep s 0 (-1).

(** [s[i:]] for [0 <= i]. *)
Definition str_from (s : string) (i : Z) : string :=
  String.substring (Z.to_nat i) (String.length s - Z.to_nat i) s.

(** [posixpath.basename]: [i = p.rfind("/") + 1; return p[i:]]. *)
Definition basename (p : string) : string :=
  let i := str_rfind "/"%char p + 1 in
  str_from p i.

(** ["/".join(parts)] *)
Definition join_slash (parts : list string) : string :=
  String.concat "/" parts.

(** ** The launcher object *)

Definition CODE_ZIP_NAME : string := "code.zip".
Definition PICKLED_CONFIG_FILE_NAME : string := "config.pkl".

(** The attributes [__init__] sets; [max_wait_time_sec] is that of the
    [DatabricksJobRunner] the constructor builds. *)
Record DatabricksPySparkStepLauncher : Type := mkLauncher {
  run_config : gmap string string;
  databricks_host : string;
  databricks_token : string;
  secrets : list (gmap string string);
  storage : gmap string (gmap string string);
  local_dagster_job_package_path : string;
  staging_prefix : string;
  wait_for_logs : bool;
  max_wait_time_sec : Z
}.

(** The escaping both renderings apply to the step key. *)
Definition escape_step_key (step_key : string) : string :=
  str_replace "]"%char "__" (str_replace "["%char "__" step_key).

Definition _dbfs_path (self : DatabricksPySparkStepLauncher)
    (run_id step_key filename : string) : string :=
  let path :=
    join_slash [staging_prefix self; run_id; escape_step_key step_key;
                basename filename] in
  "dbfs://" ++ path.

Definition _internal_dbfs_path (self : DatabricksPySparkStepLauncher)
    (run_id step_key filename : string) : string :=
  let path :=
    join_slash [staging_prefix self; run_id; escape_step_key step_key;
                basename filename] in
  "/dbfs/" ++ path.

(** ** Event recovery *)

(** File names of [dagster.core.execution.plan.external_step]. *)
Definition PICKLED_EVENTS_FILE_NAME : string := "events.pkl".
Definition PICKLED_STEP_RUN_REF_FILE_NAME : string := "step_run_ref.pkl".

(** [l[i:]], with Python's reading of a negative index. *)
Definition list_from {A : Type} (l : list A) (i : Z) : list A :=
  if i <? 0 then skipn (Z.to_nat (Z.of_nat (length l) + i)) l
  else skipn (Z.to_nat i) l.

Definition bump_read (c : counters) : counters :=
  mkCounters (S (n_read c)) (n_put c) (n_poll c) (n_time c) (n_sleep c).
Definition bump_put (c : counters) : counters :=
  mkCounters (n_read c) (S (n_put c)) (n_poll c) (n_time c) (n_sleep c).
Definition bump_poll (c : counters) : counters :=
  mkCounters (n_read c) (n_put c) (S (n_poll c)) (n_time c) (n_sleep c).
Definition bump_time (c : counters) : counters :=
  mkCounters (n_read c) (n_put c) (n_poll c) (S (n_time c)) (n_sleep c).
Definition bump_sleep (c : counters) : counters :=
  mkCounters (n_read c) (n_put c) (n_poll c) (n_time c) (S (n_sleep c)).

(** A call to a collaborator: its outcome becomes a result, the action
    is recorded either way. *)
Definition call {Ev A : Type} (o : outcome A) (bump : counters -> counters)
    (a : action Ev) : comp Ev A :=
  fun c =>
    match o with
    | Returns v => (Ret v, bump c, [a])
    | Raises e => (Raise e, bump c, [a])
    end.

(** [poll_interval_sec = 2.5] of [step_events_iterator]. *)
Definition poll_interval_sec : Q := 5 # 2.

Section Launcher.
Context {Ev : Type}.

(** [dagster.serdes.deserialize_value] on the payload of a record: the
    domain event, or [None] for a record that carries none.  Only
    [None] is false in [if dagster_event:], a [DagsterEvent] being a
    non-empty named tuple.  The call is taken to return. *)
Variable deserialize_value : string -> option Ev.

(** [pickle.loads] on the bytes of the event log, taken to return the
    list of records that was pickled. *)
Variable pickle_loads : list Byte.byte -> list remote_record.

(** [databricks_step_main.__file__] *)
Variable databricks_step_main_file : string.

Variable W : world.
Variable self : DatabricksPySparkStepLauncher.

Definition client_read_file (path : string) : comp Ev (list Byte.byte) :=
  fun c => call (read_file W (n_read c)) bump_read (AReadFile path) c.

Definition client_put_file (path : string) : comp Ev unit :=
  fun c => call (put_file W (n_put c)) bump_put (APutFile path) c.

Definition call_poll_run_state : comp Ev bool :=
  fun c => call (poll_run_state W (n_poll c)) bump_poll APollRunState c.

Definition call_time_time : comp Ev Q :=
  fun c => (Ret (time_time W (n_time c)), bump_time c, [ATime]).

Definition call_time_sleep (seconds : Q) : comp Ev unit :=
  fun c => call (time_sleep W (n_sleep c)) bump_sleep (ASleep seconds) c.

(** The [for record in records] loop of [get_new_events], from the
    events collected so far.  The flag tells whether the loop returned
    at [LOGS_COMPLETE]. *)
Fixpoint for_records (records : list remote_record) (events : list Ev)
    : comp Ev (list Ev * bool) :=
  match records with
  | [] => mret (events, false)
  | LOGS_COMPLETE :: _ => mret (events, true)
  | Wrapped record :: rest =>
      let dagster_event := deserialize_value (dagster_event record) in
      let record := mkLogRecord (msg record) dagster_event in
      let events :=
        match dagster_event with
        | Some event => events ++ [event]
        | None => events
        end in
      log (EmitDagsterRecord record) ;;
      for_records rest events
  end.

(** The body of the [try] block of [get_new_events]. *)
Definition read_new_events (path : string) (processed_records : Z)
    : comp Ev (list Ev * Z) :=
  raw_records ← client_read_file path;
  match raw_records with
  | [] => mret ([], processed_records)
  | _ :: _ =>
      let records := list_from (pickle_loads raw_records) processed_records in
      '(events, complete) ← for_records records [];
      if (complete : bool) then mret (events, -1)
      else mret (events, processed_records + Z.of_nat (length records))
  end.

(** The two [except] clauses of [get_new_events], [HTTPError] first.
    A clause either returns from the function ([inl]) or falls through
    to the retry count with [err] ([inr]). *)
Definition read_handlers (processed_records : Z) (e : exn)
    : option (comp Ev (list Ev * Z + exn)) :=
  match e with
  | HTTPError body =>
      Some (error_code ← of_outcome (response_error_code body);
            if is_RESOURCE_DOES_NOT_EXIST error_code
            then mret (inl ([], processed_records))
            else mret (inr e))
  | _ => if is_Exception e then Some (mret (inr e)) else None
  end.

(** The [while True] loop of [get_new_events] after [cur_retries]
    failures. *)
Fixpoint get_new_events_loop (fuel : nat) (path : string)
    (processed_records cur_retries : Z) : comp Ev (list Ev * Z) :=
  match fuel with
  | O => diverge
  | S fuel' =>
      r ← try_except
            (v ← read_new_events path processed_records; mret (inl v))
            (read_handlers processed_records);
      match r with
      | inl v => mret v
      | inr err =>
          let cur_retries := cur_retries + 1 in
          if cur_retries =? 3 then raise err
          else
            log (LogWarnReadException err) ;;
            get_new_events_loop fuel' path processed_records cur_retries
      end
  end.

(** The loop starts with no failure and raises at the third one, so
    three iterations are all it can take. *)
Definition get_new_events (run_id step_key : string) (processed_records : Z)
    : comp Ev (list Ev * Z) :=
  let path := _dbfs_path self run_id step_key PICKLED_EVENTS_FILE_NAME in
  get_new_events_loop 3 path processed_records 0.

(** ** The polling generator *)

(** [finally] block of a poll tick, and body of a log wait: one read
    cycle whose events are yielded. *)
Definition read_and_forward (dagster_run_id step_key : string)
    (processed_records : Z) : comp Ev Z :=
  '(new_events, processed_records) ←
     get_new_events dagster_run_id step_key processed_records;
  yield_all new_events ;;
  mret processed_records.

(** One iteration of [while not done]. *)
Definition poll_tick (dagster_run_id step_key : string)
    (processed_records : Z) : comp Ev (bool * Z) :=
  log LogDebugWaitingSeconds ;;
  call_time_sleep poll_interval_sec ;;
  try_finally call_poll_run_state
    (read_and_forward dagster_run_id step_key processed_records).

Fixpoint poll_loop (fuel : nat) (dagster_run_id step_key : string)
    (processed_records : Z) : comp Ev Z :=
  match fuel with
  | O => diverge
  | S fuel' =>
      '(done, processed_records) ←
         poll_tick dagster_run_id step_key processed_records;
      if (done : bool) then mret processed_records
      else poll_loop fuel' dagster_run_id step_key processed_records
  end.

(** [time.time() - start > self.databricks_runner.max_wait_time_sec] *)
Definition timed_out (start now : Q) : bool :=
  negb (Qle_bool (now - start) (inject_Z (max_wait_time_sec self))).

Definition LOGS_TIMEOUT : exn :=
  DatabricksError
    "Timed out while waiting for Dagster logs to become available.".

(** [while processed_records != -1] *)
Fixpoint logs_loop (fuel : nat) (dagster_run_id step_key : string)
    (databricks_run_id : Z) (start : Q) (processed_records : Z)
    : comp Ev unit :=
  if processed_records =? -1 then mret tt
  else
    match fuel with
    | O => diverge
    | S fuel' =>
        now ← call_time_time;
        if timed_out start now then raise LOGS_TIMEOUT
        else
          log (LogInfoWaitingForLogs databricks_run_id) ;;
          processed_records ←
            read_and_forward dagster_run_id step_key processed_records;
          call_time_sleep poll_interval_sec ;;
          logs_loop fuel' dagster_run_id step_key databricks_run_id start
            processed_records
    end.

Definition step_events_iterator (fuel : nat) (step_key dagster_run_id : string)
    (databricks_run_id : Z) : comp Ev unit :=
  let processed_records := 0 in
  start ← call_time_time;
  log (LogInfoWaitingForRun databricks_run_id) ;;
  processed_records ←
    poll_loop fuel dagster_run_id step_key processed_records;
  log (LogInfoRunCompleted databricks_run_id) ;;
  logs_loop fuel dagster_run_id step_key databricks_run_id start
    processed_records.

(** ** The launch *)

Definition _main_file_name : string := basename databricks_step_main_file.

Definition _upload_artifacts (run_id step_key : string) : comp Ev unit :=
  log (LogInfo "Uploading main file to DBFS") ;;
  client_put_file (_dbfs_path self run_id step_key _main_file_name) ;;
  log (LogInfo "Uploading dagster job to DBFS") ;;
  client_put_file (_dbfs_path self run_id step_key CODE_ZIP_NAME) ;;
  log (LogInfo "Uploading step run ref file to DBFS") ;;
  client_put_file
    (_dbfs_path self run_id step_key PICKLED_STEP_RUN_REF_FILE_NAME) ;;
  log (LogInfo "Uploading Databricks configuration to DBFS") ;;
  client_put_file (_dbfs_path self run_id step_key PICKLED_CONFIG_FILE_NAME).

Definition call_submit_run : comp Ev Z :=
  call (submit_run W) (fun c => c) ASubmitRun.

Definition call_retrieve_logs (run_id : Z)
    : comp Ev (option (string * string)) :=
  call (retrieve_logs_for_run_id W) (fun c => c) (ARetrieveLogs run_id).

Definition log_if_nonempty (text : string) : comp Ev unit :=
  match text with
  | EmptyString => mret tt
  | String _ _ => log (LogInfo text)
  end.

Definition _log_logs_from_cluster (run_id : Z) : comp Ev unit :=
  logs ← call_retrieve_logs run_id;
  match logs with
  | None => mret tt
  | Some (stdout, stderr) =>
      log_if_nonempty stderr ;;
      log_if_nonempty stdout
  end.

Definition launch_step (fuel : nat) (run_id step_key : string)
    : comp Ev unit :=
  _upload_artifacts run_id step_key ;;
  databricks_run_id ← call_submit_run;
  try_finally
    (step_events_iterator fuel step_key run_id databricks_run_id)
    (if wait_for_logs self then _log_logs_from_cluster databricks_run_id
     else mret tt) ;;
  mret tt.

End Launcher.

(** The [task] parameter of the Databricks API: a [spark_python_task]
    with its [python_file] and its [parameters]. *)
Record spark_python_task : Type := mkTask {
  python_file : string;
  parameters : list string
}.

Definition _get_databricks_task (databricks_step_main_file : string)
    (self : DatabricksPySparkStepLauncher) (run_id step_key : string)
    : spark_python_task :=
  let python_file :=
    _dbfs_path self run_id step_key
      (_main_file_name databricks_step_main_file) in
  let parameters :=
    [_internal_dbfs_path self run_id step_key PICKLED_STEP_RUN_REF_FILE_NAME;
     _internal_dbfs_path self run_id step_key PICKLED_CONFIG_FILE_NAME;
     _internal_dbfs_path self run_id step_key CODE_ZIP_NAME] in
  mkTask python_file parameters.

(** ** DatabricksConfig *)

#[global] Instance outcome_ret : MRet outcome := fun A a => Returns a.
#[global] Instance outcome_bind : MBind outcome :=
  fun A B f m =>
    match m with
    | Returns a => f a
    | Raises e => Raises e
    end.

(** [d[key]] on a dictionary of strings. *)
Definition getitem (d : gmap string string) (key : string) : outcome string :=
  match d !! key with
  | Some v => Returns v
  | None => Raises (KeyError key)
  end.

(** What the setup on the remote side writes: the Hadoop configuration
    of the Spark context and [os.environ]. *)
Record remote_runtime : Type := mkRuntime {
  hadoop_configuration : gmap string string;
  os_environ : gmap string string
}.

Definition hadoop_set (key value : string) (rt : remote_runtime)
    : remote_runtime :=
  mkRuntime (<[key := value]> (hadoop_configuration rt)) (os_environ rt).

Definition environ_set (name value : string) (rt : remote_runtime)
    : remote_runtime :=
  mkRuntime (hadoop_configuration rt) (<[name := value]> (os_environ rt)).

Definition NO_VALID_STORAGE : exn :=
  Exception "No valid storage found in Databricks configuration!".

Record DatabricksConfig : Type := mkDatabricksConfig {
  config_storage : gmap string (gmap string string);
  config_secrets : list (gmap string string)
}.

Section RemoteSetup.

(** [dbutils.secrets.get(scope=..., key=...)]; [None] when the secret
    store has no such secret. *)
Variable dbutils_secrets : string -> string -> option string.

Definition dbutils_secrets_get (scope key : string) : outcome string :=
  match dbutils_secrets scope key with
  | Some v => Returns v
  | None => Raises (SecretError scope key)
  end.

Definition setup_s3_storage (s3_storage : gmap string string)
    (rt : remote_runtime) : outcome remote_runtime :=
  scope ← getitem s3_storage "secret_scope";
  access_key_key ← getitem s3_storage "access_key_key";
  access_key ← dbutils_secrets_get scope access_key_key;
  secret_key_key ← getitem s3_storage "secret_key_key";
  secret_key ← dbutils_secrets_get scope secret_key_key;
  let rt := hadoop_set "fs.s3n.awsAccessKeyId" access_key rt in
  let rt := hadoop_set "fs.s3n.awsSecretAccessKey" secret_key rt in
  let rt := environ_set "AWS_ACCESS_KEY_ID" access_key rt in
  let rt := environ_set "AWS_SECRET_ACCESS_KEY" secret_key rt in
  mret rt.

Definition setup_adls2_storage (adls2_storage : gmap string string)
    (rt : remote_runtime) : outcome remote_runtime :=
  scope ← getitem adls2_storage "secret_scope";
  storage_account_key_key ← getitem adls2_storage "storage_account_key_key";
  storage_account_key ← dbutils_secrets_get scope storage_account_key_key;
  storage_account_name ← getitem adls2_storage "storage_account_name";
  mret (hadoop_set
          ("fs.azure.account.key." ++ storage_account_name
             ++ ".dfs.core.windows.net")
          storage_account_key rt).

Definition setup_storage (self : DatabricksConfig) (rt : remote_runtime)
    : outcome remote_runtime :=
  match config_storage self !! "s3" with
  | Some s3_storage => setup_s3_storage s3_storage rt
  | None =>
      match config_storage self !! "adls2" with
      | Some adls2_storage => setup_adls2_storage adls2_storage rt
      | None => Raises NO_VALID_STORAGE
      end
  end.

Fixpoint setup_environment_from (secrets : list (gmap string string))
    (rt : remote_runtime) : outcome remote_runtime :=
  match secrets with
  | [] => mret rt
  | secret :: rest =>
      name ← getitem secret "name";
      key ← getitem secret "key";
      scope ← getitem secret "scope";
      val ← dbutils_secrets_get scope key;
      setup_environment_from rest (environ_set name val rt)
  end.

Definition setup_environment (self : DatabricksConfig) (rt : remote_runtime)
    : outcome remote_runtime :=
  setup_environment_from (config_secrets self) rt.

Definition setup (self : DatabricksConfig) (rt : remote_runtime)
    : outcome remote_runtime :=
  rt ← setup_storage self rt;
  setup_environment self rt.

End RemoteSetup.


(** ** The constructor *)

(** The resource configuration handed to [__init__]; the two package
    paths are optional ([None] when omitted). *)
Record resource_config : Type := mkResourceConfig {
  cfg_run_config : gmap string string;
  cfg_databricks_host : string;
  cfg_databricks_token : string;
  cfg_secrets_to_env_variables : list (gmap string string);
  cfg_storage : gmap string (gmap string string);
  cfg_staging_prefix : string;
  cfg_wait_for_logs : bool;
  cfg_max_completion_wait_time_seconds : Z;
  cfg_local_pipeline_package_path : option string;
  cfg_local_dagster_job_package_path : option string
}.

(** [check.invariant(condition, desc)] of [dagster.check]: raises
    [CheckError] unless the condition holds. *)
Definition check_invariant (condition : bool) (desc : string) : outcome unit :=
  if condition then Returns tt else Raises (CheckError desc).

(** [check.str_param(obj, name)]: the string, or a failure for [None]. *)
Definition check_str_param (obj : option string) (name : string)
    : outcome string :=
  match obj with
  | Some s => Returns s
  | None => Raises (CheckError ("Param " ++ name ++ " is not a str."))
  end.

Definition is_not_None (x : option string) : bool :=
  match x with Some _ => true | None => false end.

(** Truth value of an optional string: [None] and the empty string are
    false. *)
Definition truthy (x : option string) : bool :=
  match x with
  | Some (String _ _) => true
  | _ => false
  end.

(** [x or y] *)
Definition py_or (x y : option string) : option string :=
  if truthy x then x else y.

(** [s.startswith("/")] *)
Definition startswith_slash (s : string) : bool :=
  match s with
  | String c _ => Ascii.eqb c "/"%char
  | EmptyString => false
  end.

Definition MISSING_CONFIG : string :=
  "Missing config: need to provide either 'local_dagster_job_package_path' or 'local_pipeline_package_path' config entry".

Definition ERROR_IN_CONFIG : string :=
  "Error in config: Provided both 'local_dagster_job_package_path' and 'local_pipeline_package_path' entries. Need to specify one or the other.".

Definition __init__ (cfg : resource_config)
    : outcome DatabricksPySparkStepLauncher :=
  let local_pipeline_package_path := cfg_local_pipeline_package_path cfg in
  let local_dagster_job_package_path :=
    cfg_local_dagster_job_package_path cfg in
  check_invariant
    (is_not_None local_dagster_job_package_path
     || is_not_None local_pipeline_package_path)
    MISSING_CONFIG ;;
  check_invariant
    (negb (is_not_None local_dagster_job_package_path)
     || truthy local_pipeline_package_path)
    ERROR_IN_CONFIG ;;
  path ← check_str_param
           (py_or local_pipeline_package_path local_dagster_job_package_path)
           "local_dagster_job_package_path";
  check_invariant (startswith_slash (cfg_staging_prefix cfg))
    "staging_prefix must be an absolute path" ;;
  mret (mkLauncher (cfg_run_config cfg) (cfg_databricks_host cfg)
          (cfg_databricks_token cfg) (cfg_secrets_to_env_variables cfg)
          (cfg_storage cfg) path (cfg_staging_prefix cfg)
          (cfg_wait_for_logs cfg)
          (cfg_max_completion_wait_time_seconds cfg)).

(** * What the theorems speak of *)

(** ** Paths *)

(** What the escaping does to one character of the step key. *)
Definition escape_char (c : ascii) : string :=
  if (Ascii.eqb c "["%char || Ascii.eqb c "]"%char)%bool then "__"
  else String c EmptyString.

Fixpoint escape_each (s : string) : string :=
  match s with
  | EmptyString => EmptyString
  | String c rest => escape_char c ++ escape_each rest
  end.

Definition is_bracket (c : ascii) : bool :=
  (Ascii.eqb c "["%char || Ascii.eqb c "]"%char)%bool.

(** A string without a slash, and a string with a bracket. *)
Definition slash_free (s : string) : bool :=
  forallb (fun c => negb (Ascii.eqb c "/"%char)) (list_ascii_of_string s).

Definition has_bracket (s : string) : bool :=
  existsb is_bracket (list_ascii_of_string s).

(** ** Failed reads *)

(** A failed read that met the not-found answer of the store: an
    [HTTPError] whose body is a JSON object with the error code
    [RESOURCE_DOES_NOT_EXIST]. *)
Definition is_resource_does_not_exist (e : exn) : bool :=
  match e with
  | HTTPError (JsonObject error_code) => is_RESOURCE_DOES_NOT_EXIST error_code
  | _ => false
  end.

(** A failed read that the retry loop counts: an [Exception] that is
    no [HTTPError], or an [HTTPError] whose body is a JSON object with
    another error code or none. *)
Definition is_counted (e : exn) : bool :=
  match e with
  | HTTPError (JsonObject error_code) =>
      negb (is_RESOURCE_DOES_NOT_EXIST error_code)
  | HTTPError _ => false
  | _ => is_Exception e
  end.

(** The exception with which a failed read leaves the cycle at once:
    the interrupt itself, which no clause catches, and what the
    [HTTPError] clause raises on a body it cannot read. *)
Definition leaves_cycle (e : exn) : option exn :=
  match e with
  | DagsterExecutionInterruptedError => Some e
  | HTTPError JsonValue => Some AttributeError
  | HTTPError NotJson => Some JSONDecodeError
  | _ => None
  end.

(** ** Storage bindings *)



(** ** Batches and traces *)

(** The wrapped records of a batch that come before its first
    [LOGS_COMPLETE]. *)
Fixpoint before_complete (records : list remote_record)
    : list (LogRecord string) :=
  match records with
  | Wrapped record :: rest => record :: before_complete rest
  | _ => []
  end.

Definition reaches_complete (records : list remote_record) : bool :=
  existsb is_LOGS_COMPLETE records.

(** The events yielded in a list of actions. *)
Definition yields {Ev : Type} (t : list (action Ev)) : list Ev :=
  omap (fun a => match a with AYield e => Some e | _ => None end) t.

Section Observations.
Context {Ev : Type}.
Variable deserialize_value : string → option Ev.
Variable pickle_loads : list Byte.byte → list remote_record.

(** The event a record carries, if any, and the record as handed to the
    log handler, its payload deserialized. *)
Definition carried (record : LogRecord string) : option Ev :=
  deserialize_value (dagster_event record).

Definition forwarded (record : LogRecord string) : LogRecord (option Ev) :=
  mkLogRecord (msg record) (carried record).

Definition emits (records : list (LogRecord string)) : list (action Ev) :=
  map (fun record => ALog (EmitDagsterRecord (forwarded record))) records.

(** Batch and offset of a cycle that reads the records [log] at offset
    [processed_records]. *)
Definition batch_of (log : list remote_record) (processed_records : Z)
    : list Ev :=
  omap carried (before_complete (list_from log processed_records)).

Definition offset_of (log : list remote_record) (processed_records : Z) : Z :=
  if reaches_complete (list_from log processed_records) then -1
  else processed_records
       + Z.of_nat (length (list_from log processed_records)).

(** What a cycle returns and forwards once its read has found the
    bytes [raw]. *)
Definition cycle_value (raw : list Byte.byte) (processed_records : Z)
    : list Ev * Z :=
  match raw with
  | [] => ([], processed_records)
  | _ :: _ =>
      (batch_of (pickle_loads raw) processed_records,
       offset_of (pickle_loads raw) processed_records)
  end.

Definition cycle_emits (raw : list Byte.byte) (processed_records : Z)
    : list (action Ev) :=
  match raw with
  | [] => []
  | _ :: _ =>
      emits (before_complete (list_from (pickle_loads raw) processed_records))
  end.

End Observations.

(** The world [W] with another job service. *)
Definition with_poll_run_state (W : world) (polls : nat → outcome bool)
    : world :=
  mkWorld (read_file W) (put_file W) polls (submit_run W)
    (retrieve_logs_for_run_id W) (time_time W) (time_sleep W).

(** What [_log_logs_from_cluster] logs for the logs retrieved. *)
Definition logged_logs {Ev : Type} (logs : option (string * string))
    : list (action Ev) :=
  match logs with
  | None => []
  | Some (stdout, stderr) =>
      match stderr with
      | EmptyString => []
      | String _ _ => [ALog (LogInfo stderr)]
      end
      ++ match stdout with
         | EmptyString => []
         | String _ _ => [ALog (LogInfo stdout)]
         end
  end.

(** The actions of a launch up to the submission of the run. *)
Definition submitted {Ev : Type} (databricks_step_main_file : string)
    (self : DatabricksPySparkStepLauncher) (run_id step_key : string)
    : list (action Ev) :=
  [ALog (LogInfo "Uploading main file to DBFS");
   APutFile (_dbfs_path self run_id step_key
               (_main_file_name databricks_step_main_file));
   ALog (LogInfo "Uploading dagster job to DBFS");
   APutFile (_dbfs_path self run_id step_key CODE_ZIP_NAME);
   ALog (LogInfo "Uploading step run ref file to DBFS");
   APutFile (_dbfs_path self run_id step_key PICKLED_STEP_RUN_REF_FILE_NAME);
   ALog (LogInfo "Uploading Databricks configuration to DBFS");
   APutFile (_dbfs_path self run_id step_key PICKLED_CONFIG_FILE_NAME);
   ASubmitRun].



(** ** Concrete instances

    A small remote side to run the definitions on: events are strings,
    the payload ["null"] deserializes to [None], and a log is pickled
    one byte per record. *)
Module Fixture.

Definition deserialize_value (payload : string) : option string :=
  if String.eqb payload "null" then None else Some payload.

Definition plain_record : LogRecord string := mkLogRecord "plain" "null".
Definition event_a : LogRecord string := mkLogRecord "event" "a".
Definition event_b : LogRecord string := mkLogRecord "event" "b".

Definition unpickle_record (b : Byte.byte) : remote_record :=
  match b with
  | Byte.x00 => LOGS_COMPLETE
  | Byte.x01 => Wrapped plain_record
  | Byte.x02 => Wrapped event_a
  | _ => Wrapped event_b
  end.

Definition pickle_loads (raw : list Byte.byte) : list remote_record :=
  map unpickle_record raw.

Definition main_file : string := "/site-packages/databricks_step_main.py".

Definition self : DatabricksPySparkStepLauncher :=
  mkLauncher ∅ "host" "token" [] ∅ "/pkg" "/dagster_staging" true 10.

Definition events_path : string :=
  "dbfs:///dagster_staging/r/s/events.pkl".

(** A world whose log never changes, whose job is reported done at the
    poll of index [done_at], and whose clock advances one second per
    reading. *)
Definition fixed_log_world (raw : list Byte.byte) (done_at : nat) : world :=
  mkWorld (fun _ => Returns raw) (fun _ => Returns tt)
    (fun i => Returns (Nat.leb done_at i)) (Returns 7)
    (Returns None) (fun i => inject_Z (Z.of_nat i)) (fun _ => Returns tt).

(** A world whose reads have the outcomes listed, then find the log
    [raw]. *)
Definition flaky_world (failures : list exn) (raw : list Byte.byte) : world :=
  mkWorld (fun i => match nth_error failures i with
                    | Some e => Raises e
                    | None => Returns raw
                    end)
    (fun _ => Returns tt) (fun _ => Returns true) (Returns 7)
    (Returns None) (fun i => inject_Z (Z.of_nat i)) (fun _ => Returns tt).

(** A world whose job is done at the first poll and whose log retrieval
    fails. *)
Definition failing_retrieval_world (raw : list Byte.byte) : world :=
  mkWorld (fun _ => Returns raw) (fun _ => Returns tt)
    (fun _ => Returns true) (Returns 7)
    (Raises (HTTPError (JsonObject None))) (fun i => inject_Z (Z.of_nat i))
    (fun _ => Returns tt).

(** A world whose job service fails at every status query. *)
Definition failing_poll_world (raw : list Byte.byte) : world :=
  mkWorld (fun _ => Returns raw) (fun _ => Returns tt)
    (fun _ => Raises (DatabricksError "status query failed")) (Returns 7)
    (Returns None) (fun i => inject_Z (Z.of_nat i)) (fun _ => Returns tt).


Definition dbutils_secrets (scope key : string) : option string :=
  if String.eqb scope "dagster" then Some ("secret-of-" ++ key)%string else None.

Definition s3_storage : gmap string string :=
  <["secret_scope" := "dagster"]>
    (<["access_key_key" := "ak"]> (<["secret_key_key" := "sk"]> ∅)).

Definition adls2_storage : gmap string string :=
  <["secret_scope" := "dagster"]>
    (<["storage_account_key_key" := "sak"]>
       (<["storage_account_name" := "acct"]> ∅)).

Definition runtime0 : remote_runtime := mkRuntime ∅ ∅.

Definition config (pipeline job : option string) : resource_config :=
  mkResourceConfig ∅ "host" "token" [] ∅ "/dagster_staging" false 10
    pipeline job.

(** A world given by its reads, its status queries and its sleeps; the
    clock advances one second per reading. *)
Definition scripted_world (reads : nat -> outcome (list Byte.byte))
    (polls : nat -> outcome bool) (sleeps : nat -> outcome unit) : world :=
  mkWorld reads (fun _ => Returns tt) polls (Returns 7) (Returns None)
    (fun i => inject_Z (Z.of_nat i)) sleeps.

(** A world whose first read finds [raw1] and whose later reads find
    [raw2], with a job done at the first status query. *)
Definition growing_log_world (raw1 raw2 : list Byte.byte) : world :=
  scripted_world
    (fun i => match i with O => Returns raw1 | S _ => Returns raw2 end)
    (fun _ => Returns true) (fun _ => Returns tt).

(** A world whose put of index [i] fails. *)
Definition failing_put_world (i : nat) : world :=
  mkWorld (fun _ => Returns [])
    (fun j => if Nat.eqb j i then Raises (HTTPError (JsonObject None))
              else Returns tt)
    (fun _ => Returns true) (Returns 7) (Returns None)
    (fun i => inject_Z (Z.of_nat i)) (fun _ => Returns tt).

(** A world whose job service refuses the run. *)
Definition failing_submit_world : world :=
  mkWorld (fun _ => Returns []) (fun _ => Returns tt)
    (fun _ => Returns true) (Raises (HTTPError (JsonObject None)))
    (Returns None)
    (fun i => inject_Z (Z.of_nat i)) (fun _ => Returns tt).

(** The launcher without [wait_for_logs]. *)
Definition self_without_logs : DatabricksPySparkStepLauncher :=
  mkLauncher ∅ "host" "token" [] ∅ "/pkg" "/dagster_staging" false 10.

Definition secret (name key : string) : gmap string string :=
  <["name" := name]> (<["key" := key]> (<["scope" := "dagster"]> ∅)).

End Fixture.

(** * Path rendering *)

Lemma string_app_empty_l (s : string) : (EmptyString ++ s)%string = s.
Proof. reflexivity. Qed.

Lemma string_app_cons (c : ascii) (s t : string) :
  (String c s ++ t)%string = String c (s ++ t)%string.
Proof. reflexivity. Qed.

Lemma escape_step_key_each (step_key : string) :
  escape_step_key step_key = escape_each step_key.
Proof.
  unfold escape_step_key.
  induction step_key as [|c rest IH]; simpl; [reflexivity|].
  unfold escape_char.
  destruct (Ascii.eqb c "[") eqn:Hopen; simpl.
  - rewrite string_app_empty_l, IH. reflexivity.
  - destruct (Ascii.eqb c "]") eqn:Hclose; simpl;
      rewrite ?string_app_empty_l, IH; reflexivity.
Qed.

Lemma escape_each_no_bracket (s : string) :
  forallb (fun c => negb (is_bracket c)) (list_ascii_of_string (escape_each s))
  = true.
Proof.
  induction s as [|c rest IH]; simpl; [reflexivity|].
  unfold escape_char, is_bracket in *.
  destruct (Ascii.eqb c "[") eqn:Hopen; simpl; [exact IH|].
  destruct (Ascii.eqb c "]") eqn:Hclose; simpl; [exact IH|].
  rewrite ?string_app_cons, ?string_app_empty_l. simpl.
  now rewrite Hopen, Hclose.
Qed.

(** C8.  Both renderings are functions of the launcher's staging prefix
    and of (run id, step key, file name) alone; they are the fixed
    prefixes [dbfs://] and [/dbfs/] before one common body
    [staging/run_id/escaped_step_key/basename]; the escaped step key is
    the step key with every [[] and every []] replaced by [__], so it
    holds no bracket; and for run id [r], step key [a[0]], file [x.bin]
    the step key component is [a__0__] in both. *)
Theorem dbfs_path_renderings (self : DatabricksPySparkStepLauncher)
    (run_id step_key filename : string) :
  let body :=
    (staging_prefix self ++ "/" ++ run_id ++ "/" ++ escape_each step_key
       ++ "/" ++ basename filename)%string in
  _dbfs_path self run_id step_key filename = ("dbfs://" ++ body)%string
  ∧ _internal_dbfs_path self run_id step_key filename
    = ("/dbfs/" ++ body)%string
  ∧ forallb (fun c => negb (is_bracket c))
      (list_ascii_of_string (escape_each step_key)) = true
  ∧ _dbfs_path self "r" "a[0]" "x.bin"
    = ("dbfs://" ++ staging_prefix self ++ "/r/a__0__/x.bin")%string
  ∧ _internal_dbfs_path self "r" "a[0]" "x.bin"
    = ("/dbfs/" ++ staging_prefix self ++ "/r/a__0__/x.bin")%string.
Proof.
  unfold _dbfs_path, _internal_dbfs_path, join_slash.
  rewrite escape_step_key_each.
  repeat split; try reflexivity.
  apply escape_each_no_bracket.
Qed.

(** * Storage setup on the remote side *)

Ltac outcome_steps :=
  unfold mbind, mret, outcome_bind, outcome_ret, getitem,
    dbutils_secrets_get in *.






(** * The constructor checks *)

(** C10.  A configuration with [local_dagster_job_package_path] and
    without [local_pipeline_package_path] fails the second invariant
    check; whenever the constructor succeeds,
    [local_pipeline_package_path] was provided and is the path the
    launcher keeps; and with both paths provided (the pipeline path
    non-empty, the staging prefix absolute) the constructor succeeds
    with the pipeline path. *)
Theorem init_needs_pipeline_package_path (cfg : resource_config) :
  (∀ job,
     cfg_local_dagster_job_package_path cfg = Some job →
     cfg_local_pipeline_package_path cfg = None →
     __init__ cfg = Raises (CheckError ERROR_IN_CONFIG))
  ∧ (∀ self,
       __init__ cfg = Returns self →
       ∃ pipeline,
         cfg_local_pipeline_package_path cfg = Some pipeline
         ∧ local_dagster_job_package_path self = pipeline)
  ∧ (∀ job c pipeline,
       cfg_local_dagster_job_package_path cfg = Some job →
       cfg_local_pipeline_package_path cfg = Some (String c pipeline) →
       startswith_slash (cfg_staging_prefix cfg) = true →
       ∃ self,
         __init__ cfg = Returns self
         ∧ local_dagster_job_package_path self = String c pipeline).
Proof.
  unfold __init__, check_invariant, check_str_param, py_or.
  split; [|split].
  - intros job Hjob Hpipe. rewrite Hjob, Hpipe. reflexivity.
  - intros self.
    destruct (cfg_local_dagster_job_package_path cfg) as [job|];
      destruct (cfg_local_pipeline_package_path cfg) as [[|c p]|]; simpl;
      try discriminate;
      destruct (startswith_slash (cfg_staging_prefix cfg)); simpl;
      try discriminate;
      intros H; injection H as <-; eexists; split; reflexivity.
  - intros job c p Hjob Hpipe Hstag. rewrite Hjob, Hpipe, Hstag. simpl.
    eexists. split; reflexivity.
Qed.

(** The theorem at three configurations: job path alone, both paths,
    pipeline path alone. *)
Lemma init_needs_pipeline_package_path_witness :
  __init__ (Fixture.config None (Some "/job"))
  = Raises (CheckError ERROR_IN_CONFIG)
  ∧ (∃ self,
       __init__ (Fixture.config (Some "/pipeline") (Some "/job"))
       = Returns self
       ∧ local_dagster_job_package_path self = "/pipeline")
  ∧ (∃ pipeline,
       cfg_local_pipeline_package_path (Fixture.config (Some "/p") None)
       = Some pipeline).
Proof.
  split; [|split].
  - destruct (init_needs_pipeline_package_path
                (Fixture.config None (Some "/job"))) as (H & _ & _).
    apply (H "/job"); reflexivity.
  - destruct (init_needs_pipeline_package_path
                (Fixture.config (Some "/pipeline") (Some "/job")))
      as (_ & _ & H).
    apply (H "/job"); reflexivity.
  - destruct (init_needs_pipeline_package_path
                (Fixture.config (Some "/p") None)) as (_ & H & _).
    destruct (H _ eq_refl) as (p & Hp & _). exists p. exact Hp.
Defined.

(** * The read cycle *)

Ltac comp_steps :=
  unfold mbind, mret, comp_bind, comp_ret, bind, ret, raise, diverge,
    log, tell, call, of_outcome, try_except, try_finally in *.

Section ReadCycle.
Context {Ev : Type}.
Variable deserialize_value : string → option Ev.
Variable pickle_loads : list Byte.byte → list remote_record.
Variable W : world.
Variable self : DatabricksPySparkStepLauncher.

Lemma for_records_run records events c :
  for_records deserialize_value records events c
  = (Ret (events ++ omap (carried deserialize_value) (before_complete records),
          reaches_complete records),
     c, emits deserialize_value (before_complete records)).
Proof.
  revert events. induction records as [|record rest IH]; intros events.
  - simpl. comp_steps. now rewrite app_nil_r.
  - destruct record as [|record]; simpl.
    + comp_steps. simpl. now rewrite app_nil_r.
    + comp_steps. rewrite IH. simpl. unfold forwarded, carried.
      destruct (deserialize_value (dagster_event record)) as [event|];
        simpl; [now rewrite <- app_assoc | reflexivity].
Qed.

Lemma read_new_events_raises path processed_records c e :
  read_file W (n_read c) = Raises e →
  read_new_events deserialize_value pickle_loads W path processed_records c
  = (Raise e, bump_read c, [AReadFile path]).
Proof.
  intros Hread. unfold read_new_events, client_read_file. comp_steps.
  now rewrite Hread.
Qed.

Lemma read_new_events_empty path processed_records c :
  read_file W (n_read c) = Returns [] →
  read_new_events deserialize_value pickle_loads W path processed_records c
  = (Ret ([], processed_records), bump_read c, [AReadFile path]).
Proof.
  intros Hread. unfold read_new_events, client_read_file. comp_steps.
  now rewrite Hread.
Qed.

Lemma read_new_events_log path processed_records c raw :
  read_file W (n_read c) = Returns raw →
  raw ≠ [] →
  read_new_events deserialize_value pickle_loads W path processed_records c
  = (Ret (batch_of deserialize_value (pickle_loads raw) processed_records,
          offset_of (pickle_loads raw) processed_records),
     bump_read c,
     AReadFile path
       :: emits deserialize_value (before_complete
                   (list_from (pickle_loads raw) processed_records))).
Proof.
  intros Hread Hraw. unfold read_new_events, client_read_file. comp_steps.
  rewrite Hread. destruct raw as [|b raw]; [congruence|].
  rewrite for_records_run. unfold batch_of, offset_of. simpl.
  destruct (reaches_complete _); simpl; now rewrite app_nil_r.
Qed.

(** One iteration of the retry loop, by the outcome of its read. *)
Lemma loop_returns fuel path processed_records cur_retries c v c' t :
  read_new_events deserialize_value pickle_loads W path processed_records c
  = (Ret v, c', t) →
  get_new_events_loop deserialize_value pickle_loads W (S fuel) path
    processed_records cur_retries c
  = (Ret v, c', t).
Proof.
  intros Hbody. simpl. comp_steps. rewrite Hbody. simpl.
  now rewrite !app_nil_r.
Qed.

(** Every failed read is of one of three kinds. *)
Lemma failed_read_cases (e : exn) :
  is_resource_does_not_exist e = true
  ∨ is_counted e = true
  ∨ ∃ e', leaves_cycle e = Some e'.
Proof.
  destruct e as [[code| |]| | | | | | | |]; simpl; eauto.
  destruct (is_RESOURCE_DOES_NOT_EXIST code); eauto.
Qed.

Lemma read_handlers_not_found processed_records e :
  is_resource_does_not_exist e = true →
  read_handlers (Ev := Ev) processed_records e
  = Some (mret (inl ([], processed_records))).
Proof.
  destruct e as [[code| |]| | | | | | | |]; simpl; try discriminate.
  intros H. unfold read_handlers. comp_steps. simpl. now rewrite H.
Qed.

Lemma read_handlers_counted processed_records e c :
  is_counted e = true →
  ∃ handler,
    read_handlers (Ev := Ev) processed_records e = Some handler
    ∧ handler c = (Ret (inr e), c, []).
Proof.
  destruct e as [[code| |]| | | | | | | |]; simpl; try discriminate;
    intros H; eexists; (split; [reflexivity|]); try reflexivity.
  apply negb_true_iff in H. comp_steps. simpl. now rewrite H.
Qed.

Lemma loop_not_found fuel path processed_records cur_retries c e :
  read_file W (n_read c) = Raises e →
  is_resource_does_not_exist e = true →
  get_new_events_loop deserialize_value pickle_loads W (S fuel) path
    processed_records cur_retries c
  = (Ret ([], processed_records), bump_read c, [AReadFile path]).
Proof.
  intros Hread Hnf. simpl. comp_steps.
  rewrite (read_new_events_raises _ _ _ _ Hread).
  rewrite (read_handlers_not_found _ _ Hnf). reflexivity.
Qed.

(** A failed read that no clause handles to its end: its exception, or
    that of the clause, leaves the loop at once. *)
Lemma loop_leaves fuel path processed_records cur_retries c e e' :
  read_file W (n_read c) = Raises e →
  leaves_cycle e = Some e' →
  get_new_events_loop deserialize_value pickle_loads W (S fuel) path
    processed_records cur_retries c
  = (Raise e', bump_read c, [AReadFile path]).
Proof.
  intros Hread Hleaves. simpl. comp_steps.
  rewrite (read_new_events_raises _ _ _ _ Hread).
  destruct e as [[code| |]| | | | | | | |]; simpl in Hleaves;
    try discriminate; injection Hleaves as <-; reflexivity.
Qed.

Lemma loop_retries fuel path processed_records cur_retries c e :
  read_file W (n_read c) = Raises e →
  is_counted e = true →
  cur_retries + 1 ≠ 3 →
  get_new_events_loop deserialize_value pickle_loads W (S fuel) path
    processed_records cur_retries c
  = match get_new_events_loop deserialize_value pickle_loads W fuel path
            processed_records (cur_retries + 1) (bump_read c) with
    | (r, c', t) =>
        (r, c', AReadFile path :: ALog (LogWarnReadException e) :: t)
    end.
Proof.
  intros Hread Hnf Hcount. simpl. comp_steps.
  rewrite (read_new_events_raises _ _ _ _ Hread).
  destruct (read_handlers_counted processed_records e (bump_read c) Hnf)
    as (handler & -> & ->).
  apply Z.eqb_neq in Hcount. rewrite Hcount.
  destruct (get_new_events_loop _ _ _ fuel _ _ _ _) as [[r c'] t].
  reflexivity.
Qed.

Lemma loop_gives_up fuel path processed_records c e :
  read_file W (n_read c) = Raises e →
  is_counted e = true →
  get_new_events_loop deserialize_value pickle_loads W (S fuel) path
    processed_records 2 c
  = (Raise e, bump_read c, [AReadFile path]).
Proof.
  intros Hread Hnf. simpl. comp_steps.
  rewrite (read_new_events_raises _ _ _ _ Hread).
  destruct (read_handlers_counted processed_records e (bump_read c) Hnf)
    as (handler & -> & ->).
  reflexivity.
Qed.

End ReadCycle.

Section Retries.
Context {Ev : Type}.
Variable deserialize_value : string → option Ev.
Variable pickle_loads : list Byte.byte → list remote_record.
Variable self : DatabricksPySparkStepLauncher.

Lemma read_new_events_returns W path processed_records c raw :
  read_file W (n_read c) = Returns raw →
  read_new_events deserialize_value pickle_loads W path processed_records c
  = (Ret (cycle_value deserialize_value pickle_loads raw processed_records),
     bump_read c,
     AReadFile path
       :: cycle_emits deserialize_value pickle_loads raw processed_records).
Proof.
  intros Hread. destruct raw as [|b raw].
  - now apply read_new_events_empty.
  - apply read_new_events_log; [exact Hread | discriminate].
Qed.

Lemma get_new_events_returns W run_id step_key processed_records c raw :
  read_file W (n_read c) = Returns raw →
  get_new_events deserialize_value pickle_loads W self run_id step_key
    processed_records c
  = (Ret (cycle_value deserialize_value pickle_loads raw processed_records),
     bump_read c,
     AReadFile (_dbfs_path self run_id step_key PICKLED_EVENTS_FILE_NAME)
       :: cycle_emits deserialize_value pickle_loads raw processed_records).
Proof.
  intros Hread. unfold get_new_events.
  apply loop_returns. now apply read_new_events_returns.
Qed.

(** C4.  At any offset [n], a read that meets the store's
    [RESOURCE_DOES_NOT_EXIST] answer makes the cycle return the empty
    batch and the offset [n]: nothing is raised, one read is made and
    no warning is logged.  The retry loop does the same whatever its
    count of earlier failures, which it leaves as it is. *)
Theorem not_found_is_an_empty_batch W run_id step_key (n : Z) c :
  read_file W (n_read c)
  = Raises (HTTPError (JsonObject (Some RESOURCE_DOES_NOT_EXIST))) →
  let path := _dbfs_path self run_id step_key PICKLED_EVENTS_FILE_NAME in
  get_new_events deserialize_value pickle_loads W self run_id step_key n c
  = (Ret ([], n), bump_read c, [AReadFile path])
  ∧ ∀ fuel cur_retries,
      get_new_events_loop deserialize_value pickle_loads W (S fuel) path n
        cur_retries c
      = (Ret ([], n), bump_read c, [AReadFile path]).
Proof.
  intros Hread path. split.
  - unfold get_new_events. now apply (loop_not_found _ _ _ _ _ _ _ _ _ Hread).
  - intros fuel cur_retries.
    now apply (loop_not_found _ _ _ _ _ _ _ _ _ Hread).
Qed.

Lemma get_new_events_ends_within_three_reads W run_id step_key
    processed_records c :
  let cycle :=
    get_new_events deserialize_value pickle_loads W self run_id step_key
      processed_records c in
  cycle.1.1 ≠ Diverge
  ∧ (n_read c < n_read cycle.1.2 ≤ n_read c + 3)%nat.
Proof.
  intros cycle. subst cycle. unfold get_new_events.
  set (path := _dbfs_path self run_id step_key PICKLED_EVENTS_FILE_NAME).
  assert (Hstep : ∀ fuel cur c0,
    (∃ r t, r ≠ Diverge
            ∧ get_new_events_loop deserialize_value pickle_loads W (S fuel)
                path processed_records cur c0 = (r, bump_read c0, t))
    ∨ (∃ e, read_file W (n_read c0) = Raises e ∧ is_counted e = true)).
  { intros fuel cur c0. destruct (read_file W (n_read c0)) as [raw|e] eqn:Hr.
    - left. do 2 eexists. split; [|apply loop_returns;
        apply (read_new_events_returns _ _ _ _ _ Hr)]. discriminate.
    - destruct (failed_read_cases e) as [Hnf|[Hcounted|[e' Hleaves]]].
      + left. do 2 eexists.
        split; [|now apply loop_not_found with (e := e)]. discriminate.
      + right. eauto.
      + left. do 2 eexists.
        split; [|eapply loop_leaves; eassumption]. discriminate. }
  destruct (Hstep 2%nat 0 c) as [(r & t & Hr & ->)|(e1 & Hr1 & Hn1)];
    [simpl; split; [exact Hr | lia]|].
  rewrite (loop_retries _ _ _ _ _ _ _ _ _ Hr1 Hn1) by lia.
  destruct (Hstep 1%nat (0 + 1) (bump_read c))
    as [(r & t & Hr & ->)|(e2 & Hr2 & Hn2)];
    [simpl; split; [exact Hr | lia]|].
  rewrite (loop_retries _ _ _ _ _ _ _ _ _ Hr2 Hn2) by lia.
  destruct (Hstep 0%nat (0 + 1 + 1) (bump_read (bump_read c)))
    as [(r & t & Hr & ->)|(e3 & Hr3 & Hn3)];
    [simpl; split; [exact Hr | lia]|].
  change (0 + 1 + 1) with 2.
  rewrite (loop_gives_up _ _ _ _ _ _ _ _ Hr3 Hn3).
  simpl. split; [discriminate | lia].
Qed.

(** C3.  The retry misses the [HTTPError] whose response the handler
    cannot read.  When a read fails with an [HTTPError] whose body is
    not JSON, or is JSON but no object, the [except HTTPError] clause
    raises on its own while it looks for the error code.  The cycle
    then ends after this one read with the exception of the clause: no
    warning is logged and no second read is made, whatever the later
    reads would have found and whatever the count of earlier
    failures. *)
Theorem unreadable_error_response_is_not_retried W run_id step_key
    processed_records c body e' :
  read_file W (n_read c) = Raises (HTTPError body) →
  response_error_code body = Raises e' →
  let path := _dbfs_path self run_id step_key PICKLED_EVENTS_FILE_NAME in
  get_new_events deserialize_value pickle_loads W self run_id step_key
    processed_records c
  = (Raise e', bump_read c, [AReadFile path])
  ∧ ∀ fuel cur_retries,
      get_new_events_loop deserialize_value pickle_loads W (S fuel) path
        processed_records cur_retries c
      = (Raise e', bump_read c, [AReadFile path]).
Proof.
  intros Hread Hcode path.
  assert (Hleaves : leaves_cycle (HTTPError body) = Some e')
    by (destruct body; simpl in *; congruence).
  split.
  - unfold get_new_events. now apply (loop_leaves _ _ _ _ _ _ _ _ _ _ Hread).
  - intros fuel cur_retries.
    now apply (loop_leaves _ _ _ _ _ _ _ _ _ _ Hread).
Qed.

(** X21.  An interrupt is not a failed read.  When the execution is
    interrupted during a read, no clause of the cycle catches the
    interrupt: it leaves the cycle after this one read, is not counted,
    not logged and not retried, whatever the count of earlier
    failures. *)
Theorem interrupted_read_is_not_retried W run_id step_key processed_records
    c :
  read_file W (n_read c) = Raises DagsterExecutionInterruptedError →
  let path := _dbfs_path self run_id step_key PICKLED_EVENTS_FILE_NAME in
  get_new_events deserialize_value pickle_loads W self run_id step_key
    processed_records c
  = (Raise DagsterExecutionInterruptedError, bump_read c, [AReadFile path])
  ∧ ∀ fuel cur_retries,
      get_new_events_loop deserialize_value pickle_loads W (S fuel) path
        processed_records cur_retries c
      = (Raise DagsterExecutionInterruptedError, bump_read c,
         [AReadFile path]).
Proof.
  intros Hread path. split.
  - unfold get_new_events.
    now apply (loop_leaves _ _ _ _ _ _ _ _ _ _ Hread).
  - intros fuel cur_retries.
    now apply (loop_leaves _ _ _ _ _ _ _ _ _ _ Hread).
Qed.

(** X20.  A cycle makes at most three reads and always ends.  When its
    first two reads fail with failures that the loop counts (an
    [Exception] that is no [HTTPError], or an [HTTPError] whose JSON
    body has another error code than the not-found one) and the third
    finds the log, it returns the batch and the offset of a cycle whose
    first read finds that log, and forwards the same records, after
    two warnings.  When three reads in a row fail so, the cycle raises
    the third error and returns no batch. *)
Theorem reads_are_tried_three_times W run_id step_key processed_records c :
  let path := _dbfs_path self run_id step_key PICKLED_EVENTS_FILE_NAME in
  let cycle :=
    get_new_events deserialize_value pickle_loads W self run_id step_key
      processed_records c in
  (cycle.1.1 ≠ Diverge
   ∧ (n_read c < n_read cycle.1.2 ≤ n_read c + 3)%nat)
  ∧ (∀ e1 e2 raw,
       is_counted e1 = true →
       is_counted e2 = true →
       read_file W (n_read c) = Raises e1 →
       read_file W (S (n_read c)) = Raises e2 →
       read_file W (S (S (n_read c))) = Returns raw →
       let v := cycle_value deserialize_value pickle_loads raw
                  processed_records in
       let t := cycle_emits deserialize_value pickle_loads raw
                  processed_records in
       (∀ W' c', read_file W' (n_read c') = Returns raw →
          get_new_events deserialize_value pickle_loads W' self run_id
            step_key processed_records c'
          = (Ret v, bump_read c', AReadFile path :: t))
       ∧ cycle
         = (Ret v, bump_read (bump_read (bump_read c)),
            AReadFile path :: ALog (LogWarnReadException e1)
              :: AReadFile path :: ALog (LogWarnReadException e2)
              :: AReadFile path :: t))
  ∧ (∀ e1 e2 e3,
       is_counted e1 = true →
       is_counted e2 = true →
       is_counted e3 = true →
       read_file W (n_read c) = Raises e1 →
       read_file W (S (n_read c)) = Raises e2 →
       read_file W (S (S (n_read c))) = Raises e3 →
       cycle
       = (Raise e3, bump_read (bump_read (bump_read c)),
          [AReadFile path; ALog (LogWarnReadException e1);
           AReadFile path; ALog (LogWarnReadException e2);
           AReadFile path])).
Proof.
  intros path cycle.
  split; [apply get_new_events_ends_within_three_reads|].
  subst cycle. unfold get_new_events. fold path. split.
  - intros e1 e2 raw Hn1 Hn2 Hr1 Hr2 Hr3. cbv zeta.
    change (S (S (n_read c))) with (n_read (bump_read (bump_read c))) in Hr3.
    change (S (n_read c)) with (n_read (bump_read c)) in Hr2.
    split.
    + intros W' c' Hr'. apply loop_returns.
      now apply read_new_events_returns.
    + rewrite (loop_retries _ _ _ _ _ _ _ _ _ Hr1 Hn1) by lia.
      rewrite (loop_retries _ _ _ _ _ _ _ _ _ Hr2 Hn2) by lia.
      erewrite loop_returns;
        [reflexivity | now apply read_new_events_returns].
  - intros e1 e2 e3 Hn1 Hn2 Hn3 Hr1 Hr2 Hr3.
    change (S (S (n_read c))) with (n_read (bump_read (bump_read c))) in Hr3.
    change (S (n_read c)) with (n_read (bump_read c)) in Hr2.
    rewrite (loop_retries _ _ _ _ _ _ _ _ _ Hr1 Hn1) by lia.
    rewrite (loop_retries _ _ _ _ _ _ _ _ _ Hr2 Hn2) by lia.
    change (0 + 1 + 1) with 2.
    now rewrite (loop_gives_up _ _ _ _ _ _ _ _ Hr3 Hn3).
Qed.

End Retries.

(** * Offsets *)

Lemma list_from_nonneg {A : Type} (l : list A) (k : Z) :
  0 ≤ k → list_from l k = drop (Z.to_nat k) l.
Proof.
  intros Hk. unfold list_from.
  destruct (k <? 0) eqn:Hneg; [apply Z.ltb_lt in Hneg; lia | reflexivity].
Qed.

Lemma list_from_length {A : Type} (l : list A) :
  list_from l (Z.of_nat (length l)) = [].
Proof.
  rewrite list_from_nonneg by lia. rewrite Nat2Z.id. apply drop_all.
Qed.

(** [l[-1:]] is the last element of a list that has one. *)
Lemma list_from_minus_one {A : Type} (l : list A) (x : A) :
  list_from (l ++ [x]) (-1) = [x].
Proof.
  unfold list_from. simpl. rewrite length_app. simpl.
  replace (Z.to_nat (Z.of_nat (length l + 1) + -1)) with (length l) by lia.
  apply drop_app_length.
Qed.

Lemma before_complete_lookup (records : list remote_record) (j : nat)
    (record : LogRecord string) :
  before_complete records !! j = Some record →
  records !! j = Some (Wrapped record).
Proof.
  revert j. induction records as [|[|r] rest IH]; intros j; simpl;
    try discriminate.
  destruct j as [|j]; simpl.
  - intros [= ->]. reflexivity.
  - apply IH.
Qed.

Lemma before_complete_stop (records : list remote_record) :
  (reaches_complete records = false
   ∧ length (before_complete records) = length records)
  ∨ (reaches_complete records = true
     ∧ records !! length (before_complete records) = Some LOGS_COMPLETE).
Proof.
  induction records as [|[|r] rest IH]; simpl.
  - left. split; reflexivity.
  - right. split; reflexivity.
  - destruct IH as [[Hno Hlen]|[Hyes Hat]].
    + left. split; [exact Hno | now rewrite Hlen].
    + right. split; [exact Hyes | exact Hat].
Qed.

Lemma before_complete_wrapped (records : list (LogRecord string))
    (rest : list remote_record) :
  before_complete (map Wrapped records ++ LOGS_COMPLETE :: rest) = records.
Proof.
  induction records as [|r records IH]; simpl; [reflexivity | now rewrite IH].
Qed.

Lemma reaches_complete_wrapped (records : list (LogRecord string))
    (rest : list remote_record) :
  reaches_complete (map Wrapped records ++ LOGS_COMPLETE :: rest) = true.
Proof.
  induction records as [|r records IH]; simpl; [reflexivity | exact IH].
Qed.

Section Offsets.
Context {Ev : Type}.
Variable deserialize_value : string → option Ev.
Variable pickle_loads : list Byte.byte → list remote_record.
Variable W : world.
Variable self : DatabricksPySparkStepLauncher.

Lemma get_new_events_log run_id step_key processed_records c raw :
  read_file W (n_read c) = Returns raw →
  raw ≠ [] →
  get_new_events deserialize_value pickle_loads W self run_id step_key
    processed_records c
  = (Ret (batch_of deserialize_value (pickle_loads raw) processed_records,
          offset_of (pickle_loads raw) processed_records),
     bump_read c,
     AReadFile (_dbfs_path self run_id step_key PICKLED_EVENTS_FILE_NAME)
       :: emits deserialize_value
            (before_complete
               (list_from (pickle_loads raw) processed_records))).
Proof.
  intros Hread Hraw. unfold get_new_events.
  apply loop_returns. now apply read_new_events_log.
Qed.

(** C2, as amended.  A cycle at offset [k] within a log hands the log
    handler the log's records at the indices [k], [k+1], ... in log
    order, up to the first [LOGS_COMPLETE] at or after [k] or else the
    end of the log, and returns the events those records carry (a
    record whose payload deserializes to [None] adds none).  No record
    of an index below [k] is touched.  The new offset is [k] plus the
    number of records consumed when no [LOGS_COMPLETE] was met, and
    [-1] otherwise.  Reading the unchanged log again at a new offset
    other than [-1] returns the empty batch, forwards nothing and keeps
    the offset; so does a read at [-1] when [LOGS_COMPLETE] is the
    log's last record. *)
Theorem cycle_forwards_the_unseen_suffix run_id step_key c raw (k : Z) :
  read_file W (n_read c) = Returns raw →
  read_file W (S (n_read c)) = Returns raw →
  raw ≠ [] →
  0 ≤ k ≤ Z.of_nat (length (pickle_loads raw)) →
  let log := pickle_loads raw in
  let path := _dbfs_path self run_id step_key PICKLED_EVENTS_FILE_NAME in
  let records := before_complete (drop (Z.to_nat k) log) in
  ∃ offset,
    get_new_events deserialize_value pickle_loads W self run_id step_key k c
    = (Ret (omap (carried deserialize_value) records, offset),
       bump_read c, AReadFile path :: emits deserialize_value records)
    ∧ (∀ j record,
         records !! j = Some record →
         log !! (Z.to_nat k + j)%nat = Some (Wrapped record))
    ∧ ((offset = k + Z.of_nat (length records)
        ∧ (Z.to_nat k + length records)%nat = length log)
       ∨ (offset = -1
          ∧ log !! (Z.to_nat k + length records)%nat = Some LOGS_COMPLETE))
    ∧ (offset ≠ -1 →
       get_new_events deserialize_value pickle_loads W self run_id step_key
         offset (bump_read c)
       = (Ret ([], offset), bump_read (bump_read c), [AReadFile path]))
    ∧ (last log = Some LOGS_COMPLETE →
       get_new_events deserialize_value pickle_loads W self run_id step_key
         (-1) (bump_read c)
       = (Ret ([], -1), bump_read (bump_read c), [AReadFile path])).
Proof.
  intros Hread Hagain Hraw Hk log path records.
  change (pickle_loads raw) with log in Hk.
  exists (offset_of log k).
  assert (Hfrom : list_from log k = drop (Z.to_nat k) log)
    by (apply list_from_nonneg; lia).
  assert (Hstop := before_complete_stop (drop (Z.to_nat k) log)).
  fold records in Hstop. rewrite length_drop, lookup_drop in Hstop.
  split; [|split; [|split; [|split]]].
  - rewrite (get_new_events_log _ _ _ _ _ Hread Hraw).
    unfold batch_of. fold log. rewrite Hfrom. reflexivity.
  - intros j record Hj. apply before_complete_lookup in Hj.
    now rewrite lookup_drop in Hj.
  - unfold offset_of. rewrite Hfrom.
    destruct Hstop as [[-> Hlen]|[-> Hat]].
    + left. rewrite length_drop. fold records. split; lia.
    + right. split; [reflexivity | exact Hat].
  - intros Hoff.
    assert (Hend : offset_of log k = Z.of_nat (length log)).
    { revert Hoff. unfold offset_of. rewrite Hfrom.
      destruct (reaches_complete _); [congruence|].
      intros _. rewrite length_drop. lia. }
    rewrite Hend.
    change (S (n_read c)) with (n_read (bump_read c)) in Hagain.
    rewrite (get_new_events_log _ _ _ _ _ Hagain Hraw). fold log path.
    unfold batch_of, offset_of. fold log. rewrite list_from_length. simpl.
    rewrite Z.add_0_r. reflexivity.
  - intros Hlast.
    change (S (n_read c)) with (n_read (bump_read c)) in Hagain.
    rewrite (get_new_events_log _ _ _ _ _ Hagain Hraw). fold log path.
    destruct (decide (log = [])) as [Hnil|Hnil];
      [rewrite Hnil in Hlast; discriminate|].
    destruct (exists_last Hnil) as (front & x & Hlog).
    rewrite Hlog in Hlast. rewrite last_snoc in Hlast. injection Hlast as ->.
    unfold batch_of, offset_of. rewrite Hlog, list_from_minus_one.
    reflexivity.
Qed.

End Offsets.

(** * The poll tick *)

Lemma yields_app {Ev : Type} (t1 t2 : list (action Ev)) :
  yields (t1 ++ t2) = yields t1 ++ yields t2.
Proof. apply omap_app. Qed.

Lemma yields_map_AYield {Ev : Type} (events : list Ev) :
  yields (map AYield events) = events.
Proof.
  induction events as [|e events IH]; simpl; [reflexivity|].
  unfold yields in *. simpl. now rewrite IH.
Qed.

Section Ticks.
Context {Ev : Type}.
Variable deserialize_value : string → option Ev.
Variable pickle_loads : list Byte.byte → list remote_record.
Variable W : world.
Variable self : DatabricksPySparkStepLauncher.

Lemma yields_emits records :
  yields (emits deserialize_value records) = [].
Proof. induction records as [|r records IH]; [reflexivity | exact IH]. Qed.

Lemma yield_all_run (events : list Ev) c :
  yield_all events c = (Ret tt, c, map AYield events).
Proof.
  induction events as [|e events IH]; simpl; [reflexivity|].
  comp_steps. now rewrite IH.
Qed.

Lemma get_new_events_ends run_id step_key processed_records c :
  (get_new_events deserialize_value pickle_loads W self run_id step_key
     processed_records c).1.1 ≠ Diverge.
Proof.
  apply (get_new_events_ends_within_three_reads deserialize_value
           pickle_loads self W run_id step_key processed_records c).
Qed.
Lemma read_and_forward_returns run_id step_key processed_records c
    events offset c' t :
  get_new_events deserialize_value pickle_loads W self run_id step_key
    processed_records c = (Ret (events, offset), c', t) →
  read_and_forward deserialize_value pickle_loads W self run_id step_key
    processed_records c
  = (Ret offset, c', t ++ map AYield events).
Proof.
  intros Hcycle. unfold read_and_forward. comp_steps. rewrite Hcycle.
  rewrite yield_all_run. now rewrite app_nil_r.
Qed.

Lemma read_and_forward_raises run_id step_key processed_records c e c' t :
  get_new_events deserialize_value pickle_loads W self run_id step_key
    processed_records c = (Raise e, c', t) →
  read_and_forward deserialize_value pickle_loads W self run_id step_key
    processed_records c
  = (Raise e, c', t).
Proof.
  intros Hcycle. unfold read_and_forward. comp_steps. now rewrite Hcycle.
Qed.

Lemma poll_tick_returns run_id step_key processed_records c done events
    offset c' t :
  time_sleep W (n_sleep c) = Returns tt →
  poll_run_state W (n_poll c) = Returns done →
  get_new_events deserialize_value pickle_loads W self run_id step_key
    processed_records (bump_poll (bump_sleep c))
  = (Ret (events, offset), c', t) →
  poll_tick deserialize_value pickle_loads W self run_id step_key
    processed_records c
  = (Ret (done, offset), c',
     [ALog LogDebugWaitingSeconds; ASleep poll_interval_sec; APollRunState]
       ++ t ++ map AYield events).
Proof.
  intros Hsleep Hpoll Hcycle. apply read_and_forward_returns in Hcycle.
  unfold poll_tick, call_time_sleep, call_poll_run_state. comp_steps.
  rewrite Hsleep. simpl. rewrite Hpoll. simpl. now rewrite Hcycle.
Qed.

(** C6.  A poll tick whose sleep is not interrupted queries the job
    status once and then runs one read cycle at the current offset and
    yields its batch, whether the query returned or raised.  When the
    query raised, its exception is raised again after the batch has
    been yielded; an exception of the read cycle itself takes its
    place. *)
Theorem every_poll_tick_reads_once run_id step_key processed_records c :
  time_sleep W (n_sleep c) = Returns tt →
  let tick :=
    poll_tick deserialize_value pickle_loads W self run_id step_key
      processed_records c in
  let asked :=
    [ALog LogDebugWaitingSeconds; ASleep poll_interval_sec; APollRunState] in
  match
    get_new_events deserialize_value pickle_loads W self run_id step_key
      processed_records (bump_poll (bump_sleep c))
  with
  | (Ret (events, offset), c', t) =>
      tick
      = (match poll_run_state W (n_poll c) with
         | Returns done => Ret (done, offset)
         | Raises e => Raise e
         end,
         c', asked ++ t ++ map AYield events)
  | (Raise e', c', t) => tick = (Raise e', c', asked ++ t)
  | (Diverge, _, _) => False
  end.
Proof.
  intros Hsleep tick asked.
  destruct (get_new_events _ _ _ _ _ _ _ _) as [[r c'] t] eqn:Hcycle.
  destruct r as [[events offset]|e'|].
  - apply read_and_forward_returns in Hcycle.
    subst tick. unfold poll_tick, call_time_sleep, call_poll_run_state.
    comp_steps. rewrite Hsleep. simpl.
    destruct (poll_run_state W (n_poll c)) as [done|e]; simpl;
      rewrite Hcycle; reflexivity.
  - apply read_and_forward_raises in Hcycle.
    subst tick. unfold poll_tick, call_time_sleep, call_poll_run_state.
    comp_steps. rewrite Hsleep. simpl.
    destruct (poll_run_state W (n_poll c)) as [done|e]; simpl;
      rewrite Hcycle; reflexivity.
  - exfalso.
    apply (get_new_events_ends run_id step_key processed_records
             (bump_poll (bump_sleep c))).
    now rewrite Hcycle.
Qed.

End Ticks.

(** * Waiting for the log to complete *)

Section LogWait.
Context {Ev : Type}.
Variable deserialize_value : string → option Ev.
Variable pickle_loads : list Byte.byte → list remote_record.
Variable W : world.
Variable self : DatabricksPySparkStepLauncher.

Lemma timed_out_iff (start now : Q) :
  timed_out self start now = true
  ↔ (inject_Z (max_wait_time_sec self) < now - start)%Q.
Proof.
  unfold timed_out. rewrite negb_true_iff.
  destruct (Qle_bool (now - start) (inject_Z (max_wait_time_sec self)))
    eqn:Hle.
  - apply Qle_bool_iff in Hle. split; [discriminate|].
    intros Hlt. exfalso. exact (Qlt_not_le _ _ Hlt Hle).
  - split; [|reflexivity]. intros _. apply Qnot_le_lt.
    intros Hle'. apply Qle_bool_iff in Hle'. congruence.
Qed.

Lemma logs_loop_stops fuel run_id step_key databricks_run_id start c :
  logs_loop deserialize_value pickle_loads W self fuel run_id step_key
    databricks_run_id start (-1) c
  = (Ret tt, c, []).
Proof. destruct fuel; reflexivity. Qed.

Lemma logs_loop_in_time fuel run_id step_key databricks_run_id start
    processed_records c events offset c1 t :
  processed_records ≠ -1 →
  timed_out self start (time_time W (n_time c)) = false →
  get_new_events deserialize_value pickle_loads W self run_id step_key
    processed_records (bump_time c)
  = (Ret (events, offset), c1, t) →
  time_sleep W (n_sleep c1) = Returns tt →
  logs_loop deserialize_value pickle_loads W self (S fuel) run_id step_key
    databricks_run_id start processed_records c
  = match
      logs_loop deserialize_value pickle_loads W self fuel run_id step_key
        databricks_run_id start offset (bump_sleep c1)
    with
    | (r, c2, t2) =>
        (r, c2,
         ATime :: ALog (LogInfoWaitingForLogs databricks_run_id)
           :: t ++ map AYield events ++ ASleep poll_interval_sec :: t2)
    end.
Proof.
  intros Hoff Hnot Hcycle Hsleep.
  apply Z.eqb_neq in Hoff. apply read_and_forward_returns in Hcycle.
  simpl. rewrite Hoff. unfold call_time_time, call_time_sleep.
  comp_steps. rewrite Hnot, Hcycle, Hsleep.
  destruct (logs_loop _ _ _ _ fuel _ _ _ _ _ _) as [[r2 c2] t2].
  simpl. now rewrite <- app_assoc.
Qed.

Lemma reaches_complete_drop (records : list remote_record) (n : nat) :
  reaches_complete records = false →
  reaches_complete (drop n records) = false.
Proof.
  revert n. induction records as [|r records IH]; intros [|n] H;
    try exact H; try reflexivity.
  simpl in H. apply orb_false_iff in H. destruct H as [_ H].
  now apply IH.
Qed.

Lemma batch_of_end (log : list remote_record) :
  batch_of deserialize_value log (Z.of_nat (length log)) = [].
Proof. unfold batch_of. now rewrite list_from_length. Qed.

Lemma offset_of_no_complete (log : list remote_record) (k : Z) :
  0 ≤ k ≤ Z.of_nat (length log) →
  reaches_complete log = false →
  offset_of log k = Z.of_nat (length log).
Proof.
  intros Hk Hnone. unfold offset_of. rewrite list_from_nonneg by lia.
  rewrite reaches_complete_drop by exact Hnone. rewrite length_drop. lia.
Qed.









End LogWait.

(** * Recovery of a complete log *)

Section Recovery.
Context {Ev : Type}.
Variable deserialize_value : string → option Ev.
Variable pickle_loads : list Byte.byte → list remote_record.
Variable W : world.
Variable self : DatabricksPySparkStepLauncher.

(** The first cycle over a log that ends at [LOGS_COMPLETE]. *)
Lemma get_new_events_complete_log run_id step_key c raw records :
  read_file W (n_read c) = Returns raw →
  raw ≠ [] →
  pickle_loads raw = map Wrapped records ++ [LOGS_COMPLETE] →
  get_new_events deserialize_value pickle_loads W self run_id step_key 0 c
  = (Ret (omap (carried deserialize_value) records, -1), bump_read c,
     AReadFile (_dbfs_path self run_id step_key PICKLED_EVENTS_FILE_NAME)
       :: emits deserialize_value records).
Proof.
  intros Hread Hraw Hlog.
  rewrite (get_new_events_log _ _ _ _ _ _ _ _ _ Hread Hraw).
  unfold batch_of, offset_of. rewrite Hlog.
  change (list_from ?l 0) with l.
  now rewrite before_complete_wrapped, reaches_complete_wrapped.
Qed.

(** A cycle at [-1] over such a log. *)
Lemma get_new_events_at_terminal run_id step_key c raw front :
  read_file W (n_read c) = Returns raw →
  raw ≠ [] →
  pickle_loads raw = front ++ [LOGS_COMPLETE] →
  get_new_events deserialize_value pickle_loads W self run_id step_key (-1) c
  = (Ret ([], -1), bump_read c,
     [AReadFile (_dbfs_path self run_id step_key PICKLED_EVENTS_FILE_NAME)]).
Proof.
  intros Hread Hraw Hlog.
  rewrite (get_new_events_log _ _ _ _ _ _ _ _ _ Hread Hraw).
  unfold batch_of, offset_of. rewrite Hlog, list_from_minus_one.
  reflexivity.
Qed.

Lemma poll_loop_at_terminal run_id step_key raw front (n : nat) :
  (∀ i, read_file W i = Returns raw) →
  raw ≠ [] →
  pickle_loads raw = front ++ [LOGS_COMPLETE] →
  (∀ i, time_sleep W i = Returns tt) →
  ∀ fuel c,
    (n < fuel)%nat →
    (∀ i, (i < n)%nat → poll_run_state W (n_poll c + i) = Returns false) →
    poll_run_state W (n_poll c + n) = Returns true →
    ∃ c' t,
      poll_loop deserialize_value pickle_loads W self fuel run_id step_key
        (-1) c
      = (Ret (-1), c', t)
      ∧ yields t = []
      ∧ n_poll c' = (n_poll c + S n)%nat
      ∧ n_time c' = n_time c.
Proof.
  intros Hfixed Hraw Hlog Hsleep.
  induction n as [|n IH]; intros fuel c Hfuel Hnot Hdone;
    (destruct fuel as [|fuel]; [lia|]).
  - rewrite Nat.add_0_r in Hdone.
    assert (Htick := poll_tick_returns deserialize_value pickle_loads W self
                       run_id step_key (-1) c _ _ _ _ _ (Hsleep _) Hdone
                       (get_new_events_at_terminal _ _ _ _ _
                          (Hfixed _) Hraw Hlog)).
    simpl. comp_steps. rewrite Htick. simpl.
    do 2 eexists. split; [reflexivity|].
    split; [reflexivity|]. split; [simpl; lia | reflexivity].
  - assert (Hfirst := Hnot 0%nat ltac:(lia)).
    rewrite Nat.add_0_r in Hfirst.
    assert (Htick := poll_tick_returns deserialize_value pickle_loads W self
                       run_id step_key (-1) c _ _ _ _ _ (Hsleep _) Hfirst
                       (get_new_events_at_terminal _ _ _ _ _
                          (Hfixed _) Hraw Hlog)).
    destruct (IH fuel (bump_read (bump_poll (bump_sleep c))))
      as (c' & t & Hloop & Hy & Hp & Ht); [lia | | |].
    + intros i Hi. simpl. rewrite <- (Hnot (S i)) by lia. f_equal. lia.
    + simpl. rewrite <- Hdone. f_equal. lia.
    + simpl. comp_steps. rewrite Htick. rewrite Hloop.
      do 2 eexists. split; [reflexivity|].
      split; [|split].
      * rewrite yields_app. simpl in Hy |- *. rewrite Hy. reflexivity.
      * rewrite Hp. simpl. lia.
      * rewrite Ht. reflexivity.
Qed.

Lemma poll_loop_complete_log run_id step_key raw records (n : nat) fuel c :
  (∀ i, read_file W i = Returns raw) →
  raw ≠ [] →
  pickle_loads raw = map Wrapped records ++ [LOGS_COMPLETE] →
  (∀ i, time_sleep W i = Returns tt) →
  (n < fuel)%nat →
  (∀ i, (i < n)%nat → poll_run_state W (n_poll c + i) = Returns false) →
  poll_run_state W (n_poll c + n) = Returns true →
  ∃ c' t,
    poll_loop deserialize_value pickle_loads W self fuel run_id step_key 0 c
    = (Ret (-1), c', t)
    ∧ yields t = omap (carried deserialize_value) records
    ∧ n_poll c' = (n_poll c + S n)%nat
    ∧ n_time c' = n_time c.
Proof.
  intros Hfixed Hraw Hlog Hsleep Hfuel Hnot Hdone.
  destruct fuel as [|fuel]; [lia|].
  assert (Htick := λ done Hpoll,
            poll_tick_returns deserialize_value pickle_loads W self
              run_id step_key 0 c done _ _ _ _ (Hsleep _) Hpoll
              (get_new_events_complete_log _ _ _ _ _
                 (Hfixed _) Hraw Hlog)).
  assert (Hyields :
    yields
      ([ALog LogDebugWaitingSeconds; ASleep poll_interval_sec; APollRunState]
         ++ (AReadFile (_dbfs_path self run_id step_key
                          PICKLED_EVENTS_FILE_NAME)
               :: emits deserialize_value records)
         ++ map AYield (omap (carried deserialize_value) records))
    = omap (carried deserialize_value) records).
  { rewrite !yields_app.
    change (yields (AReadFile ?p :: ?t)) with (yields t).
    now rewrite yields_emits, yields_map_AYield. }
  destruct n as [|n].
  - rewrite Nat.add_0_r in Hdone. specialize (Htick true Hdone).
    simpl. comp_steps. rewrite Htick. simpl.
    do 2 eexists. split; [reflexivity|].
    split; [|split; [simpl; lia | reflexivity]].
    rewrite app_nil_r. exact Hyields.
  - assert (Hfirst := Hnot 0%nat ltac:(lia)).
    rewrite Nat.add_0_r in Hfirst. specialize (Htick false Hfirst).
    destruct (poll_loop_at_terminal run_id step_key raw
                (map Wrapped records) n Hfixed Hraw Hlog Hsleep fuel
                (bump_read (bump_poll (bump_sleep c))))
      as (c' & t & Hloop & Hy & Hp & Ht); [lia | | |].
    + intros i Hi. simpl. rewrite <- (Hnot (S i)) by lia. f_equal. lia.
    + simpl. rewrite <- Hdone. f_equal. lia.
    + simpl. comp_steps. rewrite Htick. rewrite Hloop.
      do 2 eexists. split; [reflexivity|].
      split; [|split].
      * rewrite yields_app, Hy, app_nil_r. exact Hyields.
      * rewrite Hp. simpl. lia.
      * rewrite Ht. reflexivity.
Qed.

Lemma length_omap_le {A B : Type} (f : A → option B) (l : list A) :
  (length (omap f l) ≤ length l)%nat.
Proof.
  unfold omap. induction l as [|x l IH]; simpl; [lia|].
  destruct (f x); simpl; lia.
Qed.

Lemma length_omap_all {A B : Type} (f : A → option B) (l : list A) :
  Forall (λ x, is_Some (f x)) l → length (omap f l) = length l.
Proof.
  unfold omap. induction 1 as [|x l [y Hy] _ IH]; simpl; [reflexivity|].
  rewrite Hy. simpl. now rewrite IH.
Qed.

(** C1, as amended.  Let the log be fixed, with [N-1] wrapped records
    followed by [LOGS_COMPLETE].  A cycle at offset [0] returns, in log
    order, the events those records carry and the offset [-1]; a
    record whose payload deserializes to [None] is handed to the log
    handler and adds no event, so the batch has [N-1] events when every
    record carries one and fewer otherwise.  A cycle at [-1] returns
    the empty batch and [-1] and forwards nothing.  A run of the
    generator from offset [0], with a job reported done at some poll
    and sleeps that are not interrupted, yields exactly that one batch
    and returns without entering the log wait. *)
Theorem complete_log_is_recovered_in_order run_id step_key databricks_run_id
    raw records (n fuel : nat) c :
  (∀ i, read_file W i = Returns raw) →
  raw ≠ [] →
  pickle_loads raw = map Wrapped records ++ [LOGS_COMPLETE] →
  (∀ i, time_sleep W i = Returns tt) →
  (∀ i, (i < n)%nat → poll_run_state W (n_poll c + i) = Returns false) →
  poll_run_state W (n_poll c + n) = Returns true →
  (n < fuel)%nat →
  let path := _dbfs_path self run_id step_key PICKLED_EVENTS_FILE_NAME in
  let events := omap (carried deserialize_value) records in
  get_new_events deserialize_value pickle_loads W self run_id step_key 0 c
  = (Ret (events, -1), bump_read c,
     AReadFile path :: emits deserialize_value records)
  ∧ get_new_events deserialize_value pickle_loads W self run_id step_key
      (-1) c
    = (Ret ([], -1), bump_read c, [AReadFile path])
  ∧ (∃ c' t,
       step_events_iterator deserialize_value pickle_loads W self fuel
         step_key run_id databricks_run_id c
       = (Ret tt, c', t)
       ∧ yields t = events
       ∧ n_poll c' = (n_poll c + S n)%nat
       ∧ n_time c' = S (n_time c))
  ∧ (length events ≤ length records)%nat
  ∧ (Forall (λ record, is_Some (carried deserialize_value record)) records →
     length events = length records).
Proof.
  intros Hfixed Hraw Hlog Hsleep Hnot Hdone Hfuel path events.
  split; [now apply get_new_events_complete_log with (raw := raw)|].
  split; [now apply get_new_events_at_terminal
            with (raw := raw) (front := map Wrapped records)|].
  split; [|split; [apply length_omap_le | apply length_omap_all]].
  destruct (poll_loop_complete_log run_id step_key raw records n fuel
              (bump_time c) Hfixed Hraw Hlog Hsleep Hfuel Hnot Hdone)
    as (c' & t & Hloop & Hy & Hp & Ht).
  unfold step_events_iterator, call_time_time. comp_steps.
  rewrite Hloop. rewrite logs_loop_stops.
  do 2 eexists. split; [reflexivity|].
  split; [|split; [exact Hp | exact Ht]].
  simpl. rewrite yields_app.
  change (yields (?t ++ [ALog ?l])) with (yields (t ++ [ALog l])).
  rewrite Hy. simpl. now rewrite app_nil_r.
Qed.

End Recovery.

(** * The launch and its log retrieval *)

Section Launch.
Context {Ev : Type}.
Variable deserialize_value : string → option Ev.
Variable pickle_loads : list Byte.byte → list remote_record.
Variable databricks_step_main_file : string.
Variable W : world.
Variable self : DatabricksPySparkStepLauncher.

Lemma log_logs_from_cluster_run (run_id : Z) c :
  _log_logs_from_cluster (Ev := Ev) W run_id c
  = match retrieve_logs_for_run_id W with
    | Returns logs => (Ret tt, c, ARetrieveLogs run_id :: logged_logs logs)
    | Raises e => (Raise e, c, [ARetrieveLogs run_id])
    end.
Proof.
  unfold _log_logs_from_cluster, call_retrieve_logs, log_if_nonempty.
  comp_steps.
  destruct (retrieve_logs_for_run_id W) as [[[stdout stderr]|]|e];
    try reflexivity.
  destruct stderr, stdout; reflexivity.
Qed.

(** C7, as amended.  With [wait_for_logs] set, once the artifacts are
    uploaded and the run is submitted, the log retrieval runs exactly
    once when the event generator ends, whether it returned or raised
    (an interrupted sleep included).  When the retrieval returns, the
    launch ends as the generator did, after logging the non-empty
    stderr and stdout.  When the retrieval raises, nothing catches its
    exception: it is the outcome of the launch, in place of the
    generator's. *)
Theorem retrieval_runs_on_every_exit run_id step_key (fuel : nat) c
    (databricks_run_id : Z) :
  wait_for_logs self = true →
  (∀ i, (i < 4)%nat → put_file W (n_put c + i) = Returns tt) →
  submit_run W = Returns databricks_run_id →
  match
    step_events_iterator deserialize_value pickle_loads W self fuel step_key
      run_id databricks_run_id
      (bump_put (bump_put (bump_put (bump_put c))))
  with
  | (Diverge, _, _) => True
  | (outcome, c', t) =>
      launch_step deserialize_value pickle_loads databricks_step_main_file
        W self fuel run_id step_key c
      = match retrieve_logs_for_run_id W with
        | Returns logs =>
            (outcome, c',
             submitted databricks_step_main_file self run_id step_key ++ t
               ++ ARetrieveLogs databricks_run_id :: logged_logs logs)
        | Raises e =>
            (Raise e, c',
             submitted databricks_step_main_file self run_id step_key ++ t
               ++ [ARetrieveLogs databricks_run_id])
        end
  end.
Proof.
  intros Hwait Hput Hsubmit.
  destruct (step_events_iterator _ _ _ _ _ _ _ _ _) as [[outcome c'] t]
    eqn:Hiter.
  assert (Hlaunch :
    launch_step deserialize_value pickle_loads databricks_step_main_file
      W self fuel run_id step_key c
    = match outcome with
      | Diverge => (Diverge, c', submitted databricks_step_main_file self run_id step_key ++ t)
      | _ =>
          match retrieve_logs_for_run_id W with
          | Returns logs =>
              (outcome, c',
               submitted databricks_step_main_file self run_id step_key ++ t
                 ++ ARetrieveLogs databricks_run_id :: logged_logs logs)
          | Raises e =>
              (Raise e, c',
               submitted databricks_step_main_file self run_id step_key ++ t
                 ++ [ARetrieveLogs databricks_run_id])
          end
      end).
  { unfold launch_step, _upload_artifacts, client_put_file, call_submit_run.
    comp_steps.
    assert (H0 := Hput 0%nat ltac:(lia)). rewrite Nat.add_0_r in H0.
    assert (H1 := Hput 1%nat ltac:(lia)).
    assert (H2 := Hput 2%nat ltac:(lia)).
    assert (H3 := Hput 3%nat ltac:(lia)).
    replace (n_put c + 1)%nat with (S (n_put c)) in H1 by lia.
    replace (n_put c + 2)%nat with (S (S (n_put c))) in H2 by lia.
    replace (n_put c + 3)%nat with (S (S (S (n_put c)))) in H3 by lia.
    simpl. rewrite H0. simpl. rewrite H1. simpl. rewrite H2. simpl.
    rewrite H3. simpl. rewrite Hsubmit. simpl.
    change (mkCounters (n_read c) (S (S (S (S (n_put c))))) (n_poll c)
              (n_time c) (n_sleep c))
      with (bump_put (bump_put (bump_put (bump_put c)))).
    rewrite Hiter, Hwait.
    destruct outcome as [[]|e0|]; try reflexivity;
      rewrite log_logs_from_cluster_run;
      destruct (retrieve_logs_for_run_id W) as [logs|e]; simpl;
      rewrite ?app_nil_r; reflexivity. }
  destruct outcome as [[]|e0|]; [exact Hlaunch | exact Hlaunch | exact I].
Qed.

End Launch.

(** * The theorems at concrete logs *)

(** The claim of C1 as first stated fails on a log of N = 2 records, a
    record without event and [LOGS_COMPLETE]: the cycle at offset [0]
    returns no event where N - 1 = 1 is promised, and a whole run of the
    generator yields none. *)
Lemma complete_log_with_plain_record_yields_no_event :
  let raw := [Byte.x01; Byte.x00] in
  let W := Fixture.fixed_log_world raw 0 in
  Fixture.pickle_loads raw = [Wrapped Fixture.plain_record; LOGS_COMPLETE]
  ∧ get_new_events Fixture.deserialize_value Fixture.pickle_loads W
      Fixture.self "r" "s" 0 counters0
    = (Ret ([], -1), bump_read counters0,
       [AReadFile Fixture.events_path;
        ALog (EmitDagsterRecord (mkLogRecord "plain" None))])
  ∧ (let run :=
       step_events_iterator Fixture.deserialize_value Fixture.pickle_loads W
         Fixture.self 1 "s" "r" 7 counters0 in
     run.1.1 = Ret tt ∧ yields run.2 = []).
Proof. repeat split; reflexivity. Qed.

(** The theorem on the log of the events [a], a record without event
    and [b], with a job done at the third poll; and on a log whose two
    records both carry an event. *)
Lemma complete_log_is_recovered_in_order_witness :
  let raw := [Byte.x02; Byte.x01; Byte.x03; Byte.x00] in
  let W := Fixture.fixed_log_world raw 2 in
  get_new_events Fixture.deserialize_value Fixture.pickle_loads W
    Fixture.self "r" "s" 0 counters0
  = (Ret (["a"; "b"], -1), bump_read counters0,
     AReadFile Fixture.events_path
       :: emits Fixture.deserialize_value
            [Fixture.event_a; Fixture.plain_record; Fixture.event_b])
  ∧ get_new_events Fixture.deserialize_value Fixture.pickle_loads W
      Fixture.self "r" "s" (-1) counters0
    = (Ret ([], -1), bump_read counters0, [AReadFile Fixture.events_path])
  ∧ (∃ c' t,
       step_events_iterator Fixture.deserialize_value Fixture.pickle_loads W
         Fixture.self 5 "s" "r" 7 counters0
       = (Ret tt, c', t)
       ∧ yields t = ["a"; "b"]
       ∧ n_poll c' = 3%nat
       ∧ n_time c' = 1%nat)
  ∧ length
      (omap (carried Fixture.deserialize_value)
         [Fixture.event_a; Fixture.event_b])
    = 2%nat.
Proof.
  intros raw W.
  assert (Hnot : ∀ i : nat, (i < 2)%nat →
            poll_run_state W (n_poll counters0 + i) = Returns false).
  { intros [|[|i]] Hi; [reflexivity | reflexivity | lia]. }
  destruct (complete_log_is_recovered_in_order Fixture.deserialize_value
              Fixture.pickle_loads W Fixture.self "r" "s" 7 raw
              [Fixture.event_a; Fixture.plain_record; Fixture.event_b]
              2 5 counters0 (λ _, eq_refl) ltac:(discriminate) eq_refl
              (λ _, eq_refl) Hnot eq_refl ltac:(lia))
    as (Hfirst & Hterminal & Hrun & _).
  split; [exact Hfirst|]. split; [exact Hterminal|]. split; [exact Hrun|].
  destruct (complete_log_is_recovered_in_order Fixture.deserialize_value
              Fixture.pickle_loads
              (Fixture.fixed_log_world [Byte.x02; Byte.x03; Byte.x00] 0)
              Fixture.self "r" "s" 7 [Byte.x02; Byte.x03; Byte.x00]
              [Fixture.event_a; Fixture.event_b]
              0 1 counters0 (λ _, eq_refl) ltac:(discriminate) eq_refl
              (λ _, eq_refl) ltac:(intros i Hi; lia) eq_refl ltac:(lia))
    as (_ & _ & _ & _ & Hall).
  apply Hall. repeat constructor; eexists; reflexivity.
Defined.

(** The claim of C2 as first stated fails on the log of a record
    without event, an event [a], [LOGS_COMPLETE] and an event [b].  The
    cycle at offset [0] covers two records and returns the one event
    [a], with the offset [-1].  Read again at the same offset [0], the
    unchanged log gives [a] once more; read again at the offset [-1]
    just returned, it gives [b] and the offset [0]: in neither reading
    is the batch empty. *)
Lemma reread_of_unchanged_log_is_not_empty :
  let raw := [Byte.x01; Byte.x02; Byte.x00; Byte.x03] in
  let W := Fixture.fixed_log_world raw 0 in
  let cycle :=
    get_new_events Fixture.deserialize_value Fixture.pickle_loads W
      Fixture.self "r" "s" in
  Fixture.pickle_loads raw
  = [Wrapped Fixture.plain_record; Wrapped Fixture.event_a; LOGS_COMPLETE;
     Wrapped Fixture.event_b]
  ∧ (cycle 0 counters0).1.1 = Ret (["a"], -1)
  ∧ (cycle 0 (bump_read counters0)).1.1 = Ret (["a"], -1)
  ∧ (cycle (-1) (bump_read counters0)).1.1 = Ret (["b"], 0).
Proof. repeat split; reflexivity. Qed.

(** The theorem at offset [1] of a log of three records without
    sentinel, and at offset [0] of a log that ends at its sentinel. *)
Lemma cycle_forwards_the_unseen_suffix_witness :
  let raw := [Byte.x02; Byte.x01; Byte.x03] in
  let W := Fixture.fixed_log_world raw 0 in
  let complete := Fixture.fixed_log_world [Byte.x02; Byte.x00] 0 in
  get_new_events Fixture.deserialize_value Fixture.pickle_loads W
    Fixture.self "r" "s" 1 counters0
  = (Ret (["b"], 3), bump_read counters0,
     AReadFile Fixture.events_path
       :: emits Fixture.deserialize_value
            [Fixture.plain_record; Fixture.event_b])
  ∧ Fixture.pickle_loads raw !! 1%nat = Some (Wrapped Fixture.plain_record)
  ∧ get_new_events Fixture.deserialize_value Fixture.pickle_loads W
      Fixture.self "r" "s" 3 (bump_read counters0)
    = (Ret ([], 3), bump_read (bump_read counters0),
       [AReadFile Fixture.events_path])
  ∧ get_new_events Fixture.deserialize_value Fixture.pickle_loads complete
      Fixture.self "r" "s" (-1) (bump_read counters0)
    = (Ret ([], -1), bump_read (bump_read counters0),
       [AReadFile Fixture.events_path]).
Proof.
  intros raw W complete.
  destruct (cycle_forwards_the_unseen_suffix Fixture.deserialize_value
              Fixture.pickle_loads W Fixture.self "r" "s" counters0 raw 1
              eq_refl eq_refl ltac:(discriminate)
              ltac:(vm_compute; split; discriminate))
    as (offset & Hcycle & Hindex & Hoffset & Hagain & _).
  destruct Hoffset as [[-> _]|[_ Hcomplete]]; [|discriminate Hcomplete].
  split; [exact Hcycle|].
  split; [exact (Hindex 0%nat Fixture.plain_record eq_refl)|].
  split; [apply Hagain; discriminate|].
  destruct (cycle_forwards_the_unseen_suffix Fixture.deserialize_value
              Fixture.pickle_loads complete Fixture.self "r" "s" counters0
              [Byte.x02; Byte.x00] 0
              eq_refl eq_refl ltac:(discriminate)
              ltac:(vm_compute; split; discriminate))
    as (offset & _ & _ & _ & _ & Hterminal).
  apply Hterminal. reflexivity.
Defined.

(** The theorem in a world whose first read fails with an [HTTPError]
    whose body is no JSON, as that of a gateway that answers 502 with a
    page of HTML, and whose second read would find the complete log:
    the cycle raises the decoding error after the first read. *)
Lemma unreadable_error_response_is_not_retried_witness :
  let raw := [Byte.x02; Byte.x00] in
  let W := Fixture.flaky_world [HTTPError NotJson] raw in
  get_new_events Fixture.deserialize_value Fixture.pickle_loads W
    Fixture.self "r" "s" 0 counters0
  = (Raise JSONDecodeError, bump_read counters0,
     [AReadFile Fixture.events_path])
  ∧ read_file W 1 = Returns raw
  ∧ get_new_events Fixture.deserialize_value Fixture.pickle_loads W
      Fixture.self "r" "s" 0 (bump_read counters0)
    = (Ret (["a"], -1), bump_read (bump_read counters0),
       [AReadFile Fixture.events_path;
        ALog (EmitDagsterRecord (mkLogRecord "event" (Some "a")))]).
Proof.
  intros raw W. split; [|split; reflexivity].
  apply (unreadable_error_response_is_not_retried Fixture.deserialize_value
           Fixture.pickle_loads Fixture.self W "r" "s" 0 counters0 NotJson
           JSONDecodeError eq_refl eq_refl).
Defined.

(** The theorem in a world whose first read is interrupted. *)
Lemma interrupted_read_is_not_retried_witness :
  get_new_events Fixture.deserialize_value Fixture.pickle_loads
    (Fixture.flaky_world [DagsterExecutionInterruptedError]
       [Byte.x02; Byte.x00])
    Fixture.self "r" "s" 0 counters0
  = (Raise DagsterExecutionInterruptedError, bump_read counters0,
     [AReadFile Fixture.events_path]).
Proof.
  apply (interrupted_read_is_not_retried Fixture.deserialize_value
           Fixture.pickle_loads Fixture.self
           (Fixture.flaky_world [DagsterExecutionInterruptedError]
              [Byte.x02; Byte.x00])
           "r" "s" 0 counters0 eq_refl).
Defined.

(** The theorem in a world whose first two reads fail, and in one
    whose first three reads fail. *)
Lemma reads_are_tried_three_times_witness :
  let raw := [Byte.x02; Byte.x00] in
  let e1 := HTTPError (JsonObject None) in
  let e2 := Exception "connection reset" in
  let e3 := HTTPError (JsonObject (Some "TEMPORARILY_UNAVAILABLE")) in
  (∃ v t,
     get_new_events Fixture.deserialize_value Fixture.pickle_loads
       (Fixture.fixed_log_world raw 0) Fixture.self "r" "s" 0 counters0
     = (Ret v, bump_read counters0, AReadFile Fixture.events_path :: t)
     ∧ get_new_events Fixture.deserialize_value Fixture.pickle_loads
         (Fixture.flaky_world [e1; e2] raw) Fixture.self "r" "s" 0 counters0
       = (Ret v, bump_read (bump_read (bump_read counters0)),
          AReadFile Fixture.events_path :: ALog (LogWarnReadException e1)
            :: AReadFile Fixture.events_path
            :: ALog (LogWarnReadException e2)
            :: AReadFile Fixture.events_path :: t))
  ∧ get_new_events Fixture.deserialize_value Fixture.pickle_loads
      (Fixture.flaky_world [e1; e2; e3] raw) Fixture.self "r" "s" 0 counters0
    = (Raise e3, bump_read (bump_read (bump_read counters0)),
       [AReadFile Fixture.events_path; ALog (LogWarnReadException e1);
        AReadFile Fixture.events_path; ALog (LogWarnReadException e2);
        AReadFile Fixture.events_path]).
Proof.
  intros raw e1 e2 e3. split.
  - destruct (reads_are_tried_three_times Fixture.deserialize_value
                Fixture.pickle_loads Fixture.self
                (Fixture.flaky_world [e1; e2] raw) "r" "s" 0 counters0)
      as (_ & Hthird & _).
    destruct (Hthird e1 e2 raw eq_refl eq_refl eq_refl eq_refl eq_refl)
      as (Hfirst & Hcycle).
    do 2 eexists. split; [|exact Hcycle].
    exact (Hfirst (Fixture.fixed_log_world raw 0) counters0 eq_refl).
  - destruct (reads_are_tried_three_times Fixture.deserialize_value
                Fixture.pickle_loads Fixture.self
                (Fixture.flaky_world [e1; e2; e3] raw) "r" "s" 0 counters0)
      as (_ & _ & Hraise).
    apply (Hraise e1 e2 e3); reflexivity.
Defined.

(** The theorem at offset [5] of an event log that was never
    written. *)
Lemma not_found_is_an_empty_batch_witness :
  get_new_events Fixture.deserialize_value Fixture.pickle_loads
    (Fixture.flaky_world
       [HTTPError (JsonObject (Some RESOURCE_DOES_NOT_EXIST))] [])
    Fixture.self "r" "s" 5 counters0
  = (Ret ([], 5), bump_read counters0, [AReadFile Fixture.events_path]).
Proof.
  apply (not_found_is_an_empty_batch Fixture.deserialize_value
           Fixture.pickle_loads Fixture.self
           (Fixture.flaky_world
              [HTTPError (JsonObject (Some RESOURCE_DOES_NOT_EXIST))] [])
           "r" "s" 5 counters0 eq_refl).
Defined.


(** The theorem in a world whose status query raises: the event [a] is
    read and yielded before the error is raised again. *)
Lemma every_poll_tick_reads_once_witness :
  poll_tick Fixture.deserialize_value Fixture.pickle_loads
    (Fixture.failing_poll_world [Byte.x02]) Fixture.self "r" "s" 0 counters0
  = (Raise (DatabricksError "status query failed"),
     mkCounters 1 0 1 0 1,
     [ALog LogDebugWaitingSeconds; ASleep poll_interval_sec; APollRunState;
      AReadFile Fixture.events_path;
      ALog (EmitDagsterRecord (mkLogRecord "event" (Some "a")));
      AYield "a"]).
Proof.
  exact (every_poll_tick_reads_once Fixture.deserialize_value
           Fixture.pickle_loads (Fixture.failing_poll_world [Byte.x02])
           Fixture.self "r" "s" 0 counters0 eq_refl).
Defined.

(** The claim of C7 as first stated fails in a world whose log
    retrieval raises: the generator returns, and the launch raises the
    exception of the retrieval. *)
Lemma failed_retrieval_is_the_launch_outcome :
  let W := Fixture.failing_retrieval_world [Byte.x02; Byte.x00] in
  wait_for_logs Fixture.self = true
  ∧ (step_events_iterator Fixture.deserialize_value Fixture.pickle_loads W
       Fixture.self 1 "s" "r" 7 (mkCounters 0 4 0 0 0)).1.1
    = Ret tt
  ∧ (launch_step Fixture.deserialize_value Fixture.pickle_loads
       Fixture.main_file W Fixture.self 1 "r" "s" counters0).1.1
    = Raise (HTTPError (JsonObject None)).
Proof. repeat split; reflexivity. Qed.

(** The theorem on a launch whose generator returns and whose cluster
    has no logs to retrieve. *)
Lemma retrieval_runs_on_every_exit_witness :
  let W := Fixture.fixed_log_world [Byte.x02; Byte.x00] 0 in
  let run :=
    step_events_iterator Fixture.deserialize_value Fixture.pickle_loads W
      Fixture.self 1 "s" "r" 7 (mkCounters 0 4 0 0 0) in
  launch_step Fixture.deserialize_value Fixture.pickle_loads
    Fixture.main_file W Fixture.self 1 "r" "s" counters0
  = (Ret tt, run.1.2,
     submitted Fixture.main_file Fixture.self "r" "s" ++ run.2
       ++ [ARetrieveLogs 7]).
Proof.
  exact (retrieval_runs_on_every_exit Fixture.deserialize_value
           Fixture.pickle_loads Fixture.main_file
           (Fixture.fixed_log_world [Byte.x02; Byte.x00] 0) Fixture.self
           "r" "s" 1 counters0 7 eq_refl (λ _ _, eq_refl) eq_refl).
Defined.

(** * More on the read cycle *)

Lemma before_complete_app (front back : list remote_record) :
  reaches_complete front = false →
  before_complete (front ++ back)
  = before_complete front ++ before_complete back.
Proof.
  induction front as [|[|r] front IH]; simpl; intros H;
    [reflexivity | discriminate | now rewrite IH].
Qed.

Lemma reaches_complete_app (front back : list remote_record) :
  reaches_complete front = false →
  reaches_complete (front ++ back) = reaches_complete back.
Proof.
  induction front as [|[|r] front IH]; simpl; intros H;
    [reflexivity | discriminate | now apply IH].
Qed.

Lemma length_before_complete_le (records : list remote_record) :
  (length (before_complete records) ≤ length records)%nat.
Proof.
  induction records as [|[|r] records IH]; simpl; lia.
Qed.

Section MoreCycles.
Context {Ev : Type}.
Variable deserialize_value : string → option Ev.
Variable pickle_loads : list Byte.byte → list remote_record.
Variable self : DatabricksPySparkStepLauncher.

(** Whatever the reads do, a cycle that returns has met the not-found
    answer or has found some bytes; it yields nothing itself and leaves
    the job service, the clock and the sleep alone. *)
Lemma loop_returns_cases W path processed_records (fuel : nat) :
  ∀ cur_retries c v c' t,
    get_new_events_loop deserialize_value pickle_loads W fuel path
      processed_records cur_retries c
    = (Ret v, c', t) →
    (v = ([], processed_records)
     ∨ ∃ raw, v = cycle_value deserialize_value pickle_loads raw
                    processed_records)
    ∧ n_poll c' = n_poll c ∧ n_time c' = n_time c
    ∧ n_sleep c' = n_sleep c ∧ n_put c' = n_put c.
Proof.
  induction fuel as [|fuel IH]; intros cur c v c' t Hloop;
    [discriminate Hloop|].
  destruct (read_file W (n_read c)) as [raw|e] eqn:Hread.
  - rewrite (loop_returns _ _ _ _ _ _ _ _ _ _ _
               (read_new_events_returns _ _ _ _ _ _ _ Hread)) in Hloop.
    injection Hloop as <- <- _. split; [right; eauto | repeat split].
  - destruct (failed_read_cases e) as [Hnf|[Hnf|[e' Hleaves]]].
    + rewrite (loop_not_found _ _ _ _ _ _ _ _ _ Hread Hnf) in Hloop.
      injection Hloop as <- <- _. split; [left; reflexivity | repeat split].
    + destruct (decide (cur + 1 = 3)) as [Hthird|Hthird].
      * replace cur with 2 in Hloop by lia.
        rewrite (loop_gives_up _ _ _ _ _ _ _ _ Hread Hnf) in Hloop.
        discriminate Hloop.
      * rewrite (loop_retries _ _ _ _ _ _ _ _ _ Hread Hnf Hthird) in Hloop.
        destruct (get_new_events_loop _ _ _ fuel _ _ _ _)
          as [[r c1] t1] eqn:Hrest.
        injection Hloop as -> -> _.
        apply IH in Hrest. exact Hrest.
    + rewrite (loop_leaves _ _ _ _ _ _ _ _ _ _ Hread Hleaves) in Hloop.
      discriminate Hloop.
Qed.

(** X1.  A read that finds an empty file makes the cycle return the
    empty batch and the offset it was given: one read, nothing
    unpickled or forwarded, no retry; the retry loop does the same
    whatever its count of earlier failures. *)
Theorem empty_file_is_an_empty_batch W run_id step_key (n : Z) c :
  read_file W (n_read c) = Returns [] →
  let path := _dbfs_path self run_id step_key PICKLED_EVENTS_FILE_NAME in
  get_new_events deserialize_value pickle_loads W self run_id step_key n c
  = (Ret ([], n), bump_read c, [AReadFile path])
  ∧ ∀ fuel cur_retries,
      get_new_events_loop deserialize_value pickle_loads W (S fuel) path n
        cur_retries c
      = (Ret ([], n), bump_read c, [AReadFile path]).
Proof.
  intros Hread path.
  assert (Hbody := read_new_events_empty deserialize_value pickle_loads W
                     path n c Hread).
  split; [unfold get_new_events|intros fuel cur]; now apply loop_returns.
Qed.

(** X2.  A cycle that returns from a non-negative offset never moves the
    offset back: the new offset is [-1] or at least the old one, and in
    the latter case the batch has no more events than the offset
    advanced by.  The cycle yields nothing itself and makes no status
    query, clock reading, sleep or upload. *)
Theorem offset_only_moves_forward W run_id step_key (processed_records : Z)
    c events offset c' t :
  0 ≤ processed_records →
  get_new_events deserialize_value pickle_loads W self run_id step_key
    processed_records c
  = (Ret (events, offset), c', t) →
  (offset = -1
   ∨ (processed_records ≤ offset
      ∧ Z.of_nat (length events) ≤ offset - processed_records))
  ∧ n_poll c' = n_poll c ∧ n_time c' = n_time c
  ∧ n_sleep c' = n_sleep c ∧ n_put c' = n_put c.
Proof.
  intros Hpr Hcycle. unfold get_new_events in Hcycle.
  apply loop_returns_cases in Hcycle.
  destruct Hcycle as [Hvalue Hcounters]. split; [|exact Hcounters].
  destruct Hvalue as [Hnf|[raw Hraw]].
  - injection Hnf as -> ->. right. simpl. lia.
  - destruct raw as [|b raw]; simpl in Hraw.
    + injection Hraw as -> ->. right. simpl. lia.
    + injection Hraw as -> ->. unfold offset_of, batch_of.
      destruct (reaches_complete _); [left; reflexivity|]. right.
      assert (H1 := length_omap_le (carried deserialize_value)
                      (before_complete
                         (list_from (pickle_loads (b :: raw))
                            processed_records))).
      assert (H2 := length_before_complete_le
                      (list_from (pickle_loads (b :: raw))
                         processed_records)).
      lia.
Qed.

Lemma loop_not_yet_written W path n cur_retries fuel c :
  read_file W (n_read c)
  = Raises (HTTPError (JsonObject (Some RESOURCE_DOES_NOT_EXIST)))
  ∨ read_file W (n_read c) = Returns [] →
  get_new_events_loop deserialize_value pickle_loads W (S fuel) path n
    cur_retries c
  = (Ret ([], n), bump_read c, [AReadFile path]).
Proof.
  intros [Hnf|Hempty].
  - now apply (loop_not_found _ _ _ _ _ _ _ _ _ Hnf).
  - apply loop_returns. now apply read_new_events_empty.
Qed.

(** X3.  Failed reads do not hide a log that is not written yet.  After
    one or two reads that fail with a failure the loop counts (an
    [Exception] that is no [HTTPError], or an [HTTPError] whose JSON
    body has another error code than the not-found one), a read that
    meets the not-found answer or an empty file still makes the cycle
    return the empty batch and the offset it was given; the failures
    are logged as warnings and nothing is raised. *)
Theorem failures_then_not_yet_written W run_id step_key (n : Z) c e1 :
  is_counted e1 = true →
  read_file W (n_read c) = Raises e1 →
  let path := _dbfs_path self run_id step_key PICKLED_EVENTS_FILE_NAME in
  let cycle :=
    get_new_events deserialize_value pickle_loads W self run_id step_key
      n c in
  let absent (i : nat) :=
    read_file W i
    = Raises (HTTPError (JsonObject (Some RESOURCE_DOES_NOT_EXIST)))
    ∨ read_file W i = Returns [] in
  (absent (S (n_read c)) →
   cycle
   = (Ret ([], n), bump_read (bump_read c),
      [AReadFile path; ALog (LogWarnReadException e1); AReadFile path]))
  ∧ (∀ e2,
       is_counted e2 = true →
       read_file W (S (n_read c)) = Raises e2 →
       absent (S (S (n_read c))) →
       cycle
       = (Ret ([], n), bump_read (bump_read (bump_read c)),
          [AReadFile path; ALog (LogWarnReadException e1);
           AReadFile path; ALog (LogWarnReadException e2);
           AReadFile path])).
Proof.
  intros Hn1 Hr1 path cycle absent. subst cycle absent.
  unfold get_new_events. fold path.
  rewrite (loop_retries _ _ _ _ _ _ _ _ _ Hr1 Hn1) by lia.
  split.
  - intros Habsent.
    change (S (n_read c)) with (n_read (bump_read c)) in Habsent.
    now rewrite (loop_not_yet_written _ _ _ _ _ _ Habsent).
  - intros e2 Hn2 Hr2 Habsent.
    change (S (S (n_read c))) with (n_read (bump_read (bump_read c)))
      in Habsent.
    change (S (n_read c)) with (n_read (bump_read c)) in Hr2.
    rewrite (loop_retries _ _ _ _ _ _ _ _ _ Hr2 Hn2) by lia.
    now rewrite (loop_not_yet_written _ _ _ _ _ _ Habsent).
Qed.

(** X4.  Cycles compose over an append-only log.  Let a cycle at offset
    [k] read a log that has no [LOGS_COMPLETE] from [k] on, and let the
    next cycle, at the offset the first returned, read that log with
    more records appended.  Then the two batches, one after the other,
    are the batch of one cycle at [k] over the longer log, the records
    forwarded are the same in the same order, and the final offset is
    the same: no record is delivered twice and none is skipped. *)
Theorem cycles_compose_over_appended_log W run_id step_key c raw1 raw2 more
    (k : Z) :
  read_file W (n_read c) = Returns raw1 →
  read_file W (S (n_read c)) = Returns raw2 →
  raw1 ≠ [] →
  raw2 ≠ [] →
  pickle_loads raw2 = pickle_loads raw1 ++ more →
  0 ≤ k ≤ Z.of_nat (length (pickle_loads raw1)) →
  reaches_complete (drop (Z.to_nat k) (pickle_loads raw1)) = false →
  let path := _dbfs_path self run_id step_key PICKLED_EVENTS_FILE_NAME in
  ∃ batch1 batch2 offset1 offset2 emits1 emits2,
    get_new_events deserialize_value pickle_loads W self run_id step_key k c
    = (Ret (batch1, offset1), bump_read c, AReadFile path :: emits1)
    ∧ offset1 = Z.of_nat (length (pickle_loads raw1))
    ∧ get_new_events deserialize_value pickle_loads W self run_id step_key
        offset1 (bump_read c)
      = (Ret (batch2, offset2), bump_read (bump_read c),
         AReadFile path :: emits2)
    ∧ ∀ W' c',
        read_file W' (n_read c') = Returns raw2 →
        get_new_events deserialize_value pickle_loads W' self run_id
          step_key k c'
        = (Ret (batch1 ++ batch2, offset2), bump_read c',
           AReadFile path :: emits1 ++ emits2).
Proof.
  intros Hr1 Hr2 Hraw1 Hraw2 Hlog Hk Hnone path.
  set (log1 := pickle_loads raw1) in *.
  change (S (n_read c)) with (n_read (bump_read c)) in Hr2.
  do 6 eexists. split; [|split; [|split]].
  - rewrite (get_new_events_log _ _ _ _ _ _ _ _ _ Hr1 Hraw1).
    fold log1 path. reflexivity.
  - unfold offset_of. fold log1. rewrite list_from_nonneg by lia.
    rewrite Hnone, length_drop. lia.
  - rewrite (get_new_events_log _ _ _ _ _ _ _ _ _ Hr2 Hraw2).
    fold path. reflexivity.
  - intros W' c' Hr'.
    rewrite (get_new_events_log _ _ _ _ _ _ _ _ _ Hr' Hraw2). fold path.
    assert (Hoff1 : offset_of log1 k = Z.of_nat (length log1)).
    { unfold offset_of. rewrite list_from_nonneg by lia.
      rewrite Hnone, length_drop. lia. }
    rewrite Hoff1. unfold batch_of, offset_of. rewrite Hlog.
    rewrite !list_from_nonneg by lia. rewrite Nat2Z.id.
    rewrite drop_app_length.
    rewrite drop_app_le by lia.
    rewrite (before_complete_app _ _ Hnone).
    rewrite (reaches_complete_app _ _ Hnone).
    rewrite omap_app. unfold emits. rewrite map_app.
    do 3 f_equal.
    destruct (reaches_complete more); [reflexivity|].
    rewrite length_app, length_drop. f_equal. lia.
Qed.

End MoreCycles.

(** * More on the polling generator *)

Ltac skip_actions :=
  repeat first
    [ progress change (yields (ALog ?l :: ?r)) with (yields r)
    | progress change (yields (ATime :: ?r)) with (yields r)
    | progress change (yields (ASleep _ :: ?r)) with (yields r)
    | progress change (yields (APollRunState :: ?r)) with (yields r)
    | progress change (yields (AReadFile ?p :: ?r)) with (yields r) ].

Section MoreTicks.
Context {Ev : Type}.
Variable deserialize_value : string → option Ev.
Variable pickle_loads : list Byte.byte → list remote_record.
Variable W : world.
Variable self : DatabricksPySparkStepLauncher.

Lemma poll_tick_poll_raises run_id step_key processed_records c e events
    offset c' t :
  time_sleep W (n_sleep c) = Returns tt →
  poll_run_state W (n_poll c) = Raises e →
  get_new_events deserialize_value pickle_loads W self run_id step_key
    processed_records (bump_poll (bump_sleep c))
  = (Ret (events, offset), c', t) →
  poll_tick deserialize_value pickle_loads W self run_id step_key
    processed_records c
  = (Raise e, c',
     [ALog LogDebugWaitingSeconds; ASleep poll_interval_sec; APollRunState]
       ++ t ++ map AYield events).
Proof.
  intros Hsleep Hpoll Hcycle. apply read_and_forward_returns in Hcycle.
  unfold poll_tick, call_time_sleep, call_poll_run_state. comp_steps.
  rewrite Hsleep. simpl. rewrite Hpoll. simpl. now rewrite Hcycle.
Qed.

Lemma poll_tick_interrupted run_id step_key processed_records c e :
  time_sleep W (n_sleep c) = Raises e →
  poll_tick deserialize_value pickle_loads W self run_id step_key
    processed_records c
  = (Raise e, bump_sleep c,
     [ALog LogDebugWaitingSeconds; ASleep poll_interval_sec]).
Proof.
  intros Hsleep. unfold poll_tick, call_time_sleep. comp_steps.
  now rewrite Hsleep.
Qed.

(** [n] poll ticks that find the job still running, over a fixed log
    without [LOGS_COMPLETE]: the first yields what was not yet seen,
    the others nothing, and the loop goes on from the end of the
    log. *)
Lemma poll_loop_quiet_ticks run_id step_key raw :
  (∀ i, read_file W i = Returns raw) →
  raw ≠ [] →
  reaches_complete (pickle_loads raw) = false →
  ∀ (n : nat) c processed_records,
    0 ≤ processed_records ≤ Z.of_nat (length (pickle_loads raw)) →
    (∀ i, (i < n)%nat → poll_run_state W (n_poll c + i) = Returns false) →
    (∀ i, (i < n)%nat → time_sleep W (n_sleep c + i) = Returns tt) →
    ∃ c1 t1,
      n_poll c1 = (n_poll c + n)%nat
      ∧ n_sleep c1 = (n_sleep c + n)%nat
      ∧ n_read c1 = (n_read c + n)%nat
      ∧ n_time c1 = n_time c
      ∧ yields t1
        = match n with
          | O => []
          | S _ =>
              batch_of deserialize_value (pickle_loads raw) processed_records
          end
      ∧ ∀ fuel,
          poll_loop deserialize_value pickle_loads W self (n + fuel) run_id
            step_key processed_records c
          = match
              poll_loop deserialize_value pickle_loads W self fuel run_id
                step_key
                match n with
                | O => processed_records
                | S _ => Z.of_nat (length (pickle_loads raw))
                end c1
            with
            | (r, c2, t2) => (r, c2, t1 ++ t2)
            end.
Proof.
  intros Hfixed Hraw Hnone.
  induction n as [|n IH]; intros c pr Hpr Hpoll Hsleep.
  - exists c, []. repeat split; try (simpl; lia).
    intros fuel. simpl. now destruct (poll_loop _ _ _ _ _ _ _ _ _) as [[r c2] t2].
  - assert (Hp0 := Hpoll 0%nat ltac:(lia)). rewrite Nat.add_0_r in Hp0.
    assert (Hs0 := Hsleep 0%nat ltac:(lia)). rewrite Nat.add_0_r in Hs0.
    assert (Hcycle := get_new_events_log deserialize_value pickle_loads W
                        self run_id step_key pr (bump_poll (bump_sleep c))
                        raw (Hfixed _) Hraw).
    rewrite (offset_of_no_complete _ _ Hpr Hnone) in Hcycle.
    assert (Htick := poll_tick_returns deserialize_value pickle_loads W self
                       run_id step_key pr c _ _ _ _ _ Hs0 Hp0 Hcycle).
    destruct (IH (bump_read (bump_poll (bump_sleep c)))
                (Z.of_nat (length (pickle_loads raw))))
      as (c1 & t1 & Hnp & Hns & Hnr & Hnt & Hy & Hloop); [lia | | |].
    + intros i Hi. simpl. rewrite <- (Hpoll (S i)) by lia. f_equal. lia.
    + intros i Hi. simpl. rewrite <- (Hsleep (S i)) by lia. f_equal. lia.
    + exists c1,
        (([ALog LogDebugWaitingSeconds; ASleep poll_interval_sec; APollRunState]
            ++ (AReadFile (_dbfs_path self run_id step_key
                             PICKLED_EVENTS_FILE_NAME)
                  :: emits deserialize_value
                       (before_complete (list_from (pickle_loads raw) pr)))
            ++ map AYield (batch_of deserialize_value (pickle_loads raw) pr))
           ++ t1).
      split; [rewrite Hnp; simpl; lia|].
      split; [rewrite Hns; simpl; lia|].
      split; [rewrite Hnr; simpl; lia|].
      split; [rewrite Hnt; reflexivity|].
      split.
      * rewrite !yields_app.
        change (yields (AReadFile ?p :: ?rest)) with (yields rest).
        rewrite yields_emits, yields_map_AYield, Hy.
        simpl. destruct n; rewrite ?batch_of_end; now rewrite ?app_nil_r.
      * intros fuel. simpl. comp_steps. rewrite Htick, Hloop.
        replace (match n with
                 | O => Z.of_nat (length (pickle_loads raw))
                 | S _ => Z.of_nat (length (pickle_loads raw))
                 end)
          with (Z.of_nat (length (pickle_loads raw)))
          by (now destruct n).
        destruct (poll_loop _ _ _ _ fuel _ _ _ _) as [[r c2] t2].
        now rewrite <- !app_assoc.
Qed.

(** X5.  A status query that raises ends the generator.  Over a fixed
    log without [LOGS_COMPLETE], after [n] ticks that found the job
    running, a tick whose status query raises [e] still runs its read
    cycle; the generator has then yielded, once and in log order, the
    events of the log, and raises [e]: no later status query or read is
    made and the log wait is not entered. *)
Theorem failed_status_query_ends_the_generator run_id step_key
    databricks_run_id raw (n fuel : nat) c e :
  (∀ i, read_file W i = Returns raw) →
  raw ≠ [] →
  reaches_complete (pickle_loads raw) = false →
  (∀ i, (i < n)%nat → poll_run_state W (n_poll c + i) = Returns false) →
  poll_run_state W (n_poll c + n) = Raises e →
  (∀ i, (i < S n)%nat → time_sleep W (n_sleep c + i) = Returns tt) →
  (n < fuel)%nat →
  ∃ c' t,
    step_events_iterator deserialize_value pickle_loads W self fuel step_key
      run_id databricks_run_id c
    = (Raise e, c', t)
    ∧ yields t = batch_of deserialize_value (pickle_loads raw) 0
    ∧ n_poll c' = (n_poll c + S n)%nat
    ∧ n_read c' = (n_read c + S n)%nat
    ∧ n_time c' = S (n_time c).
Proof.
  intros Hfixed Hraw Hnone Hpoll Hfail Hsleep Hfuel.
  replace fuel with (n + S (fuel - S n))%nat by lia.
  destruct (poll_loop_quiet_ticks run_id step_key raw Hfixed Hraw Hnone n
              (bump_time c) 0)
    as (c1 & t1 & Hnp & Hns & Hnr & Hnt & Hy & Hloop);
    [lia | exact Hpoll | intros i Hi; apply Hsleep; lia |].
  set (pr := match n with
             | O => 0
             | S _ => Z.of_nat (length (pickle_loads raw))
             end) in *.
  assert (Hpr : 0 ≤ pr ≤ Z.of_nat (length (pickle_loads raw)))
    by (subst pr; destruct n; lia).
  assert (Hcycle := get_new_events_log deserialize_value pickle_loads W
                      self run_id step_key pr (bump_poll (bump_sleep c1))
                      raw (Hfixed _) Hraw).
  assert (Htick := poll_tick_poll_raises run_id step_key pr c1 e _ _ _ _
                     ltac:(rewrite Hns; apply Hsleep; lia)
                     ltac:(rewrite Hnp; exact Hfail) Hcycle).
  unfold step_events_iterator, call_time_time. comp_steps.
  rewrite Hloop. simpl. comp_steps. rewrite Htick.
  do 2 eexists. split; [reflexivity|].
  split; [|split; [simpl; rewrite Hnp; simpl; lia|
           split; [simpl; rewrite Hnr; simpl; lia|
                   simpl; rewrite Hnt; reflexivity]]].
  simpl. rewrite !yields_app. skip_actions. rewrite !yields_app.
  rewrite yields_emits, yields_map_AYield, Hy.
  subst pr. destruct n; simpl; rewrite ?batch_of_end; now rewrite ?app_nil_r.
Qed.

(** X6.  An interrupt during the sleep of a poll tick ends the generator
    at once.  Over a fixed log without [LOGS_COMPLETE], after [n] ticks
    that found the job running, a sleep that raises [e] makes the
    generator raise [e] with no status query and no read in that tick:
    what was yielded is what the earlier ticks found. *)
Theorem interrupted_sleep_ends_the_generator run_id step_key
    databricks_run_id raw (n fuel : nat) c e :
  (∀ i, read_file W i = Returns raw) →
  raw ≠ [] →
  reaches_complete (pickle_loads raw) = false →
  (∀ i, (i < n)%nat → poll_run_state W (n_poll c + i) = Returns false) →
  (∀ i, (i < n)%nat → time_sleep W (n_sleep c + i) = Returns tt) →
  time_sleep W (n_sleep c + n) = Raises e →
  (n < fuel)%nat →
  ∃ c' t,
    step_events_iterator deserialize_value pickle_loads W self fuel step_key
      run_id databricks_run_id c
    = (Raise e, c', t)
    ∧ yields t
      = match n with
        | O => []
        | S _ => batch_of deserialize_value (pickle_loads raw) 0
        end
    ∧ n_poll c' = (n_poll c + n)%nat
    ∧ n_read c' = (n_read c + n)%nat.
Proof.
  intros Hfixed Hraw Hnone Hpoll Hsleep Hint Hfuel.
  replace fuel with (n + S (fuel - S n))%nat by lia.
  destruct (poll_loop_quiet_ticks run_id step_key raw Hfixed Hraw Hnone n
              (bump_time c) 0)
    as (c1 & t1 & Hnp & Hns & Hnr & Hnt & Hy & Hloop);
    [lia | exact Hpoll | exact Hsleep |].
  assert (Htick := λ pr, poll_tick_interrupted run_id step_key pr c1 e
                     ltac:(rewrite Hns; exact Hint)).
  unfold step_events_iterator, call_time_time. comp_steps.
  rewrite Hloop. simpl. comp_steps. rewrite Htick.
  do 2 eexists. split; [reflexivity|].
  split; [|split; [simpl; rewrite Hnp; reflexivity|
                   simpl; rewrite Hnr; reflexivity]].
  simpl. rewrite !yields_app, Hy. simpl. now rewrite app_nil_r.
Qed.

End MoreTicks.

Lemma reaches_complete_all_wrapped (records : list (LogRecord string)) :
  reaches_complete (map Wrapped records) = false.
Proof. induction records as [|r records IH]; [reflexivity | exact IH]. Qed.

Lemma before_complete_all_wrapped (records : list (LogRecord string)) :
  before_complete (map Wrapped records) = records.
Proof.
  induction records as [|r records IH]; simpl; [reflexivity | now rewrite IH].
Qed.

Section MoreWait.
Context {Ev : Type}.
Variable deserialize_value : string → option Ev.
Variable pickle_loads : list Byte.byte → list remote_record.
Variable W : world.
Variable self : DatabricksPySparkStepLauncher.

Lemma poll_loop_done run_id step_key processed_records (fuel : nat) c
    offset c' t :
  poll_tick deserialize_value pickle_loads W self run_id step_key
    processed_records c
  = (Ret (true, offset), c', t) →
  poll_loop deserialize_value pickle_loads W self (S fuel) run_id step_key
    processed_records c
  = (Ret offset, c', t).
Proof.
  intros Htick. simpl. comp_steps. rewrite Htick. simpl.
  now rewrite app_nil_r.
Qed.

(** X7.  A log that is completed after the job is awaited.  Let the job
    be reported done at the first status query, when the log holds some
    records and no [LOGS_COMPLETE] yet, and let the next read, within
    the time budget, find the log with more records and
    [LOGS_COMPLETE] appended.  Then the generator returns without an
    error after one poll tick and one cycle of the log wait, and has
    yielded the events of all the records, each once, in log order. *)
Theorem log_completed_after_the_job_is_awaited run_id step_key
    databricks_run_id raw1 raw2 records1 records2 (fuel : nat) c :
  poll_run_state W (n_poll c) = Returns true →
  read_file W (n_read c) = Returns raw1 →
  read_file W (S (n_read c)) = Returns raw2 →
  raw1 ≠ [] →
  raw2 ≠ [] →
  pickle_loads raw1 = map Wrapped records1 →
  pickle_loads raw2 = map Wrapped (records1 ++ records2) ++ [LOGS_COMPLETE] →
  time_sleep W (n_sleep c) = Returns tt →
  time_sleep W (S (n_sleep c)) = Returns tt →
  ¬ (inject_Z (max_wait_time_sec self)
     < time_time W (S (n_time c)) - time_time W (n_time c))%Q →
  (0 < fuel)%nat →
  ∃ c' t,
    step_events_iterator deserialize_value pickle_loads W self fuel step_key
      run_id databricks_run_id c
    = (Ret tt, c', t)
    ∧ yields t = omap (carried deserialize_value) (records1 ++ records2)
    ∧ n_poll c' = S (n_poll c)
    ∧ n_read c' = S (S (n_read c)).
Proof.
  intros Hdone Hr1 Hr2 Hraw1 Hraw2 Hlog1 Hlog2 Hs1 Hs2 Hbudget Hfuel.
  destruct fuel as [|fuel]; [lia|].
  assert (Hcycle1 := get_new_events_log deserialize_value pickle_loads W
                       self run_id step_key 0
                       (bump_poll (bump_sleep (bump_time c))) raw1 Hr1 Hraw1).
  unfold batch_of, offset_of in Hcycle1. rewrite Hlog1 in Hcycle1.
  change (list_from ?l 0) with l in Hcycle1.
  rewrite reaches_complete_all_wrapped, before_complete_all_wrapped,
    length_map in Hcycle1.
  assert (Htick := poll_tick_returns deserialize_value pickle_loads W self
                     run_id step_key 0 (bump_time c) _ _ _ _ _ Hs1 Hdone
                     Hcycle1).
  set (c2 := bump_read (bump_poll (bump_sleep (bump_time c)))) in *.
  assert (Hcycle2 := get_new_events_log deserialize_value pickle_loads W
                       self run_id step_key
                       (0 + Z.of_nat (length records1)) (bump_time c2) raw2
                       Hr2 Hraw2).
  unfold batch_of, offset_of in Hcycle2. rewrite Hlog2 in Hcycle2.
  rewrite list_from_nonneg in Hcycle2 by lia.
  replace (Z.to_nat (0 + Z.of_nat (length records1)))
    with (length (map (@Wrapped) records1)) in Hcycle2
    by (rewrite length_map; lia).
  rewrite map_app, <- app_assoc, drop_app_length in Hcycle2.
  rewrite reaches_complete_wrapped, before_complete_wrapped in Hcycle2.
  assert (Hnot : timed_out self (time_time W (n_time c))
                   (time_time W (n_time c2)) = false).
  { destruct (timed_out _ _ _) eqn:Hto; [|reflexivity].
    apply timed_out_iff in Hto. contradiction. }
  assert (Hwait := logs_loop_in_time deserialize_value pickle_loads W self
                     fuel run_id step_key databricks_run_id
                     (time_time W (n_time c))
                     (0 + Z.of_nat (length records1)) c2 _ _ _ _
                     ltac:(lia) Hnot Hcycle2 Hs2).
  rewrite logs_loop_stops in Hwait.
  apply (poll_loop_done run_id step_key 0 fuel) in Htick.
  unfold step_events_iterator, call_time_time. comp_steps.
  rewrite Htick, Hwait.
  do 2 eexists. split; [reflexivity|].
  split; [|split; reflexivity].
  simpl. repeat (progress (rewrite ?yields_app; skip_actions)).
  rewrite !yields_emits, !yields_map_AYield.
  rewrite omap_app. simpl. now rewrite !app_nil_r.
Qed.

End MoreWait.

(** * More on the launch *)

Section MoreLaunch.
Context {Ev : Type}.
Variable deserialize_value : string → option Ev.
Variable pickle_loads : list Byte.byte → list remote_record.
Variable databricks_step_main_file : string.
Variable W : world.
Variable self : DatabricksPySparkStepLauncher.

Lemma upload_artifacts_run run_id step_key c :
  (∀ i, (i < 4)%nat → put_file W (n_put c + i) = Returns tt) →
  _upload_artifacts (Ev := Ev) databricks_step_main_file W self run_id
    step_key c
  = (Ret tt, bump_put (bump_put (bump_put (bump_put c))),
     take 8 (submitted databricks_step_main_file self run_id step_key)).
Proof.
  intros Hput.
  assert (H0 := Hput 0%nat ltac:(lia)). rewrite Nat.add_0_r in H0.
  assert (H1 := Hput 1%nat ltac:(lia)).
  assert (H2 := Hput 2%nat ltac:(lia)).
  assert (H3 := Hput 3%nat ltac:(lia)).
  replace (n_put c + 1)%nat with (S (n_put c)) in H1 by lia.
  replace (n_put c + 2)%nat with (S (S (n_put c))) in H2 by lia.
  replace (n_put c + 3)%nat with (S (S (S (n_put c)))) in H3 by lia.
  unfold _upload_artifacts, client_put_file. comp_steps.
  simpl. rewrite H0. simpl. rewrite H1. simpl. rewrite H2. simpl.
  rewrite H3. reflexivity.
Qed.

(** X8.  An upload that fails aborts the launch before the run is
    submitted.  When the put of index [i] (of the four) raises [e] after
    the earlier ones succeeded, the launch raises [e] after exactly
    [i + 1] puts: the run is not submitted, no status query or read is
    made, and the logs are not retrieved even with [wait_for_logs]
    set. *)
Theorem failed_upload_submits_nothing run_id step_key (fuel : nat) c
    (i : nat) e :
  (i < 4)%nat →
  (∀ j, (j < i)%nat → put_file W (n_put c + j) = Returns tt) →
  put_file W (n_put c + i) = Raises e →
  launch_step deserialize_value pickle_loads databricks_step_main_file W
    self fuel run_id step_key c
  = (Raise e,
     mkCounters (n_read c) (n_put c + S i) (n_poll c) (n_time c) (n_sleep c),
     take (2 * S i)
       (submitted databricks_step_main_file self run_id step_key)).
Proof.
  intros Hi Hput Hfail.
  unfold launch_step, _upload_artifacts, client_put_file. comp_steps.
  destruct i as [|[|[|[|i]]]]; [| | | |lia].
  - rewrite Nat.add_0_r in Hfail. simpl. rewrite Hfail. simpl.
    do 2 f_equal. unfold bump_put. simpl. f_equal. lia.
  - assert (H0 := Hput 0%nat ltac:(lia)). rewrite Nat.add_0_r in H0.
    replace (n_put c + 1)%nat with (S (n_put c)) in Hfail by lia.
    simpl. rewrite H0. simpl. rewrite Hfail. simpl.
    do 2 f_equal. unfold bump_put. simpl. f_equal. lia.
  - assert (H0 := Hput 0%nat ltac:(lia)). rewrite Nat.add_0_r in H0.
    assert (H1 := Hput 1%nat ltac:(lia)).
    replace (n_put c + 1)%nat with (S (n_put c)) in H1 by lia.
    replace (n_put c + 2)%nat with (S (S (n_put c))) in Hfail by lia.
    simpl. rewrite H0. simpl. rewrite H1. simpl. rewrite Hfail. simpl.
    do 2 f_equal. unfold bump_put. simpl. f_equal. lia.
  - assert (H0 := Hput 0%nat ltac:(lia)). rewrite Nat.add_0_r in H0.
    assert (H1 := Hput 1%nat ltac:(lia)).
    assert (H2 := Hput 2%nat ltac:(lia)).
    replace (n_put c + 1)%nat with (S (n_put c)) in H1 by lia.
    replace (n_put c + 2)%nat with (S (S (n_put c))) in H2 by lia.
    replace (n_put c + 3)%nat with (S (S (S (n_put c)))) in Hfail by lia.
    simpl. rewrite H0. simpl. rewrite H1. simpl. rewrite H2. simpl.
    rewrite Hfail. simpl. do 2 f_equal. unfold bump_put. simpl. f_equal. lia.
Qed.

(** X9.  A submission that fails is the outcome of the launch.  When the
    four uploads succeed and [submit_run] raises [e], the launch raises
    [e] right after the submission: no status query, read or sleep is
    made, and the logs are not retrieved even with [wait_for_logs]
    set. *)
Theorem failed_submission_is_not_polled run_id step_key (fuel : nat) c e :
  (∀ i, (i < 4)%nat → put_file W (n_put c + i) = Returns tt) →
  submit_run W = Raises e →
  launch_step deserialize_value pickle_loads databricks_step_main_file W
    self fuel run_id step_key c
  = (Raise e, bump_put (bump_put (bump_put (bump_put c))),
     submitted databricks_step_main_file self run_id step_key).
Proof.
  intros Hput Hsubmit.
  assert (Hup := upload_artifacts_run run_id step_key c Hput).
  unfold launch_step, call_submit_run. comp_steps.
  rewrite Hup, Hsubmit. reflexivity.
Qed.

(** X10.  Without [wait_for_logs] the launch never retrieves the logs of
    the cluster: once the run is submitted, the launch ends as the event
    generator does, with the generator's own actions last, whatever
    [retrieve_logs_for_run_id] would have done. *)
Theorem no_retrieval_without_wait_for_logs run_id step_key (fuel : nat) c
    (databricks_run_id : Z) :
  wait_for_logs self = false →
  (∀ i, (i < 4)%nat → put_file W (n_put c + i) = Returns tt) →
  submit_run W = Returns databricks_run_id →
  match
    step_events_iterator deserialize_value pickle_loads W self fuel step_key
      run_id databricks_run_id
      (bump_put (bump_put (bump_put (bump_put c))))
  with
  | (outcome, c', t) =>
      launch_step deserialize_value pickle_loads databricks_step_main_file
        W self fuel run_id step_key c
      = (outcome, c',
         submitted databricks_step_main_file self run_id step_key ++ t)
  end.
Proof.
  intros Hwait Hput Hsubmit.
  assert (Hup := upload_artifacts_run run_id step_key c Hput).
  destruct (step_events_iterator _ _ _ _ _ _ _ _ _) as [[outcome c'] t]
    eqn:Hiter.
  unfold launch_step, call_submit_run. comp_steps.
  rewrite Hup, Hsubmit, Hiter, Hwait.
  destruct outcome as [[]|e|]; simpl; rewrite ?app_nil_r; reflexivity.
Qed.

End MoreLaunch.

(** X11.  The task submitted refers only to files the launch uploads.
    When the four uploads succeed, the [python_file] of the task is one
    of the paths put, and each of its three parameters is the [/dbfs/]
    rendering of a path put in its [dbfs://] rendering. *)
Theorem task_refers_to_uploaded_files {Ev : Type}
    (databricks_step_main_file : string) (W : world)
    (self : DatabricksPySparkStepLauncher) (run_id step_key : string) c :
  (∀ i, (i < 4)%nat → put_file W (n_put c + i) = Returns tt) →
  let task :=
    _get_databricks_task databricks_step_main_file self run_id step_key in
  ∃ c' t,
    _upload_artifacts (Ev := Ev) databricks_step_main_file W self run_id
      step_key c
    = (Ret tt, c', t)
    ∧ In (APutFile (python_file task)) t
    ∧ length (parameters task) = 3%nat
    ∧ Forall
        (λ parameter,
           ∃ body,
             parameter = ("/dbfs/" ++ body)%string
             ∧ In (APutFile ("dbfs://" ++ body)%string) t)
        (parameters task).
Proof.
  intros Hput task.
  rewrite (upload_artifacts_run (Ev := Ev) databricks_step_main_file W self
             run_id step_key c Hput).
  do 2 eexists. split; [reflexivity|].
  split; [simpl; tauto|]. split; [reflexivity|].
  subst task. unfold _get_databricks_task. simpl.
  repeat constructor; eexists; (split; [reflexivity|]); simpl; tauto.
Qed.

(** * More on the paths *)

Lemma escape_each_bracket_free (s : string) :
  forallb (fun c => negb (is_bracket c)) (list_ascii_of_string s) = true →
  escape_each s = s.
Proof.
  induction s as [|c s IH]; simpl; [reflexivity|].
  intros H. apply andb_true_iff in H. destruct H as [Hc Hs].
  unfold escape_char. unfold is_bracket in Hc.
  apply negb_true_iff in Hc. rewrite Hc.
  rewrite string_app_cons, string_app_empty_l. now rewrite IH.
Qed.

Lemma has_bracket_not_free (s : string) :
  has_bracket s = true →
  forallb (fun c => negb (is_bracket c)) (list_ascii_of_string s) = false.
Proof.
  unfold has_bracket. induction s as [|c s IH]; simpl; [discriminate|].
  destruct (is_bracket c); simpl; [reflexivity | exact IH].
Qed.

(** X12.  The escaping of the step key does not keep step keys apart.
    Escaping is idempotent, so a step key and its escaped form are
    rendered to the same path in both renderings, although the two keys
    differ as soon as the step key holds a bracket: the artifacts of two
    such steps of one run land in the same directory. *)
Theorem escaped_step_keys_share_their_paths
    (self : DatabricksPySparkStepLauncher) (run_id step_key filename : string) :
  escape_step_key (escape_step_key step_key) = escape_step_key step_key
  ∧ _dbfs_path self run_id (escape_step_key step_key) filename
    = _dbfs_path self run_id step_key filename
  ∧ _internal_dbfs_path self run_id (escape_step_key step_key) filename
    = _internal_dbfs_path self run_id step_key filename
  ∧ (has_bracket step_key = true → escape_step_key step_key ≠ step_key).
Proof.
  assert (Hidem : escape_step_key (escape_step_key step_key)
                  = escape_step_key step_key).
  { rewrite !escape_step_key_each.
    apply escape_each_bracket_free, escape_each_no_bracket. }
  split; [exact Hidem|].
  unfold _dbfs_path, _internal_dbfs_path. rewrite Hidem.
  split; [reflexivity|]. split; [reflexivity|].
  intros Hhas Heq. apply has_bracket_not_free in Hhas.
  rewrite <- Heq, escape_step_key_each, escape_each_no_bracket in Hhas.
  discriminate Hhas.
Qed.

Lemma escaped_step_keys_share_their_paths_witness :
  _dbfs_path Fixture.self "r" "a__0__" "x.bin"
  = _dbfs_path Fixture.self "r" "a[0]" "x.bin"
  ∧ escape_step_key "a[0]" ≠ "a[0]".
Proof.
  destruct (escaped_step_keys_share_their_paths Fixture.self "r" "a[0]"
              "x.bin") as (_ & Hpath & _ & Hdiffer).
  split; [exact Hpath | apply Hdiffer; reflexivity].
Defined.

Lemma string_length_app (a b : string) :
  String.length (a ++ b) = (String.length a + String.length b)%nat.
Proof.
  induction a as [|c a IH]; [reflexivity|].
  rewrite string_app_cons. simpl. now rewrite IH.
Qed.

Lemma str_rfind_from_slash_free (s : string) (i last : Z) :
  slash_free s = true → str_rfind_from "/" s i last = last.
Proof.
  unfold slash_free. revert i last.
  induction s as [|c s IH]; intros i last; simpl; [reflexivity|].
  intros H. apply andb_true_iff in H. destruct H as [Hc Hs].
  apply negb_true_iff in Hc. rewrite Hc. now apply IH.
Qed.

Lemma str_rfind_from_app (sep : ascii) (a b : string) (i last : Z) :
  str_rfind_from sep (a ++ b) i last
  = str_rfind_from sep b (i + Z.of_nat (String.length a))
      (str_rfind_from sep a i last).
Proof.
  revert i last. induction a as [|c a IH]; intros i last.
  - rewrite string_app_empty_l. simpl. now rewrite Z.add_0_r.
  - rewrite string_app_cons. simpl. rewrite IH. f_equal. lia.
Qed.

Lemma substring_all (s : string) :
  String.substring 0 (String.length s) s = s.
Proof. induction s as [|c s IH]; simpl; [reflexivity | now rewrite IH]. Qed.

Lemma substring_after (a b : string) :
  String.substring (String.length a) (String.length b) (a ++ b) = b.
Proof.
  induction a as [|c a IH].
  - rewrite string_app_empty_l. apply substring_all.
  - rewrite string_app_cons. simpl. exact IH.
Qed.

Lemma basename_slash_free (name : string) :
  slash_free name = true → basename name = name.
Proof.
  intros H. unfold basename, str_rfind.
  rewrite (str_rfind_from_slash_free _ _ _ H). unfold str_from. simpl.
  rewrite Nat.sub_0_r. apply substring_all.
Qed.

Lemma basename_after_slash (dir name : string) :
  slash_free name = true →
  basename (dir ++ String "/" name) = name.
Proof.
  intros H. unfold basename, str_rfind.
  rewrite str_rfind_from_app. simpl.
  rewrite (str_rfind_from_slash_free _ _ _ H). unfold str_from.
  replace (Z.to_nat (0 + Z.of_nat (String.length dir) + 1))
    with (String.length (dir ++ "/")) by (rewrite string_length_app; simpl; lia).
  replace (dir ++ String "/" name)%string with ((dir ++ "/") ++ name)%string.
  - replace (String.length ((dir ++ "/") ++ name) - String.length (dir ++ "/"))%nat
      with (String.length name)
      by (rewrite (string_length_app (dir ++ "/") name); lia).
    apply substring_after.
  - clear. induction dir as [|c dir IH].
    + now rewrite !string_app_empty_l, string_app_cons, string_app_empty_l.
    + rewrite !string_app_cons. now rewrite IH.
Qed.

Lemma split_at_last_slash (p : string) :
  slash_free p = true
  ∨ ∃ dir name, p = (dir ++ String "/" name)%string ∧ slash_free name = true.
Proof.
  induction p as [|c p IH]; [left; reflexivity|].
  destruct IH as [Hfree|(dir & name & -> & Hname)].
  - destruct (Ascii.eqb c "/") eqn:Hc.
    + right. exists EmptyString, p. apply Ascii.eqb_eq in Hc. subst c.
      split; [now rewrite string_app_empty_l | exact Hfree].
    + left. unfold slash_free in *. simpl. now rewrite Hc.
  - right. exists (String c dir), name.
    split; [now rewrite string_app_cons | exact Hname].
Qed.

(** X13.  Only the base name of a file enters its path.  The last
    component of both renderings never holds a slash; a file name
    without a slash is kept as it is; and for a file given with a
    directory, both renderings are those of its base name, so files of
    the same name from different directories are rendered to the same
    path. *)
Theorem only_the_base_name_enters_the_path
    (self : DatabricksPySparkStepLauncher)
    (run_id step_key filename dir name : string) :
  slash_free (basename filename) = true
  ∧ (slash_free name = true →
     basename name = name
     ∧ basename (dir ++ String "/" name) = name
     ∧ _dbfs_path self run_id step_key (dir ++ String "/" name)
       = _dbfs_path self run_id step_key name
     ∧ _internal_dbfs_path self run_id step_key (dir ++ String "/" name)
       = _internal_dbfs_path self run_id step_key name).
Proof.
  split.
  - destruct (split_at_last_slash filename) as [Hfree|(d & n & -> & Hn)].
    + now rewrite basename_slash_free.
    + now rewrite basename_after_slash.
  - intros Hname. unfold _dbfs_path, _internal_dbfs_path.
    rewrite (basename_after_slash dir name Hname).
    rewrite (basename_slash_free name Hname). repeat split.
Qed.

Lemma only_the_base_name_enters_the_path_witness :
  basename "/site-packages/databricks_step_main.py" = "databricks_step_main.py"
  ∧ _dbfs_path Fixture.self "r" "s" "/tmp/a/code.zip"
    = _dbfs_path Fixture.self "r" "s" "code.zip".
Proof.
  destruct (only_the_base_name_enters_the_path Fixture.self "r" "s"
              "x" "/site-packages" "databricks_step_main.py")
    as (_ & Hmain).
  destruct (only_the_base_name_enters_the_path Fixture.self "r" "s"
              "x" "/tmp/a" "code.zip") as (_ & Hzip).
  split.
  - apply (Hmain eq_refl).
  - apply (Hzip eq_refl).
Defined.

(** * More on the setup of the remote side *)

Section MoreSetup.
Variable dbutils : string → string → option string.

Lemma setup_environment_from_frame (secrets : list (gmap string string)) :
  ∀ rt rt',
    setup_environment_from dbutils secrets rt = Returns rt' →
    hadoop_configuration rt' = hadoop_configuration rt
    ∧ (∀ n, Forall (λ secret, secret !! "name" ≠ Some n) secrets →
            os_environ rt' !! n = os_environ rt !! n).
Proof.
  induction secrets as [|secret rest IH]; intros rt rt' Hrun.
  - injection Hrun as <-. split; [reflexivity | intros; reflexivity].
  - simpl in Hrun. outcome_steps.
    destruct (secret !! "name") as [name|] eqn:Hname; [|discriminate].
    destruct (secret !! "key") as [key|]; [|discriminate].
    destruct (secret !! "scope") as [scope|]; [|discriminate].
    destruct (dbutils scope key) as [val|]; [|discriminate].
    apply IH in Hrun. destruct Hrun as [Hhadoop Henv].
    split; [exact Hhadoop|].
    intros n Hn. inversion Hn as [|? ? Hhead Hrest]; subst.
    rewrite (Henv n Hrest). simpl.
    apply lookup_insert_ne. congruence.
Qed.

(** X14.  The secrets exported by [setup_environment].  When the setup
    of the environment returns, the Hadoop configuration is as it was,
    an environment variable that no secret names is as it was, and a
    variable named by a secret holds what the secret store gives for
    the last secret of that name in the list. *)
Theorem exported_secrets_follow_the_list (self : DatabricksConfig)
    (rt rt' : remote_runtime) :
  setup_environment dbutils self rt = Returns rt' →
  hadoop_configuration rt' = hadoop_configuration rt
  ∧ (∀ n, Forall (λ secret, secret !! "name" ≠ Some n)
             (config_secrets self) →
          os_environ rt' !! n = os_environ rt !! n)
  ∧ (∀ front secret back n key scope,
       config_secrets self = front ++ secret :: back →
       secret !! "name" = Some n →
       secret !! "key" = Some key →
       secret !! "scope" = Some scope →
       Forall (λ later, later !! "name" ≠ Some n) back →
       os_environ rt' !! n = dbutils scope key
       ∧ is_Some (dbutils scope key)).
Proof.
  unfold setup_environment. intros Hrun.
  destruct (setup_environment_from_frame _ _ _ Hrun) as [Hhadoop Henv].
  split; [exact Hhadoop|]. split; [exact Henv|].
  clear Hhadoop Henv. revert rt Hrun.
  generalize (config_secrets self) as secrets.
  intros secrets rt Hrun front. revert secrets rt Hrun.
  induction front as [|first front IH];
    intros secrets rt Hrun secret back n key scope -> Hname Hkey Hscope Hlast.
  - simpl in Hrun. outcome_steps. rewrite Hname, Hkey, Hscope in Hrun.
    destruct (dbutils scope key) as [val|] eqn:Hval; [|discriminate].
    apply setup_environment_from_frame in Hrun.
    destruct Hrun as [_ Henv]. rewrite (Henv n Hlast). simpl.
    split; [apply lookup_insert_eq | eauto].
  - simpl in Hrun. outcome_steps.
    destruct (first !! "name") as [name1|]; [|discriminate].
    destruct (first !! "key") as [key1|]; [|discriminate].
    destruct (first !! "scope") as [scope1|]; [|discriminate].
    destruct (dbutils scope1 key1) as [val1|]; [|discriminate].
    exact (IH _ _ Hrun secret back n key scope eq_refl Hname Hkey Hscope
             Hlast).
Qed.

Lemma setup_s3_storage_frame s3_storage rt rt' :
  setup_s3_storage dbutils s3_storage rt = Returns rt' →
  ∃ access_key secret_key,
    rt' = environ_set "AWS_SECRET_ACCESS_KEY" secret_key
            (environ_set "AWS_ACCESS_KEY_ID" access_key
               (hadoop_set "fs.s3n.awsSecretAccessKey" secret_key
                  (hadoop_set "fs.s3n.awsAccessKeyId" access_key rt))).
Proof.
  unfold setup_s3_storage. outcome_steps. intros H.
  repeat case_match; simplify_eq. eauto.
Qed.

Lemma setup_adls2_storage_frame adls2_storage rt rt' :
  setup_adls2_storage dbutils adls2_storage rt = Returns rt' →
  ∃ key value, rt' = hadoop_set key value rt.
Proof.
  unfold setup_adls2_storage. outcome_steps. intros H.
  repeat case_match; simplify_eq. eauto.
Qed.

(** X15.  What a storage setup that returns has written.  With the
    [s3] variant, Spark and boto get the same credentials: the two
    Hadoop keys and the two [AWS_*] variables are set, key for key to
    the same values, and every other Hadoop key and environment
    variable is as it was.  Without it (the [adls2] variant), the
    environment is as it was and one Hadoop key is written. *)
Theorem storage_setup_writes_only_its_keys (self : DatabricksConfig)
    (rt rt' : remote_runtime) :
  setup_storage dbutils self rt = Returns rt' →
  (is_Some (config_storage self !! "s3") →
   is_Some (hadoop_configuration rt' !! "fs.s3n.awsAccessKeyId")
   ∧ is_Some (hadoop_configuration rt' !! "fs.s3n.awsSecretAccessKey")
   ∧ os_environ rt' !! "AWS_ACCESS_KEY_ID"
     = hadoop_configuration rt' !! "fs.s3n.awsAccessKeyId"
   ∧ os_environ rt' !! "AWS_SECRET_ACCESS_KEY"
     = hadoop_configuration rt' !! "fs.s3n.awsSecretAccessKey"
   ∧ (∀ k, k ≠ "fs.s3n.awsAccessKeyId" → k ≠ "fs.s3n.awsSecretAccessKey" →
           hadoop_configuration rt' !! k = hadoop_configuration rt !! k)
   ∧ (∀ n, n ≠ "AWS_ACCESS_KEY_ID" → n ≠ "AWS_SECRET_ACCESS_KEY" →
           os_environ rt' !! n = os_environ rt !! n))
  ∧ (config_storage self !! "s3" = None →
     os_environ rt' = os_environ rt
     ∧ ∃ key value,
         hadoop_configuration rt'
         = <[key := value]> (hadoop_configuration rt)).
Proof.
  unfold setup_storage. intros Hrun. split.
  - intros [s3 Hs3]. rewrite Hs3 in Hrun.
    apply setup_s3_storage_frame in Hrun.
    destruct Hrun as (ak & sk & ->). simpl.
    repeat split; intros; simplify_map_eq; eauto.
  - intros Hs3. rewrite Hs3 in Hrun.
    destruct (config_storage self !! "adls2") as [adls2|]; [|discriminate].
    apply setup_adls2_storage_frame in Hrun.
    destruct Hrun as (key & value & ->). simpl. eauto.
Qed.

(** X16.  A broken [s3] binding is not made up for by [adls2].  When the
    storage holds [s3], its setup alone decides: a binding without its
    [secret_scope] raises [KeyError], and a binding whose secret the
    store lacks raises the error of the secret store, also when a
    complete [adls2] binding is present beside it; and whatever error
    the storage setup raises is the outcome of the whole [setup], whose
    secrets are then not exported. *)
Theorem broken_s3_binding_fails_the_setup (self : DatabricksConfig)
    (rt : remote_runtime) (s3_storage : gmap string string) :
  config_storage self !! "s3" = Some s3_storage →
  (s3_storage !! "secret_scope" = None →
   setup_storage dbutils self rt = Raises (KeyError "secret_scope"))
  ∧ (∀ scope access_key_key,
       s3_storage !! "secret_scope" = Some scope →
       s3_storage !! "access_key_key" = Some access_key_key →
       dbutils scope access_key_key = None →
       setup_storage dbutils self rt
       = Raises (SecretError scope access_key_key))
  ∧ (∀ e, setup_storage dbutils self rt = Raises e →
          setup dbutils self rt = Raises e).
Proof.
  intros Hs3. unfold setup, setup_storage, setup_s3_storage. rewrite Hs3.
  outcome_steps. split; [|split].
  - intros Hscope. now rewrite Hscope.
  - intros scope akk Hscope Hakk Hnone. now rewrite Hscope, Hakk, Hnone.
  - intros e He. now rewrite He.
Qed.

(** X17.  The secrets do not touch the credentials of Spark.  When the
    whole [setup] returns, the storage setup returned before it and the
    Hadoop configuration is the one the storage setup left; an
    environment variable that no secret names is as the storage setup
    left it. *)
Theorem secrets_keep_the_storage_credentials (self : DatabricksConfig)
    (rt rt' : remote_runtime) :
  setup dbutils self rt = Returns rt' →
  ∃ rt1,
    setup_storage dbutils self rt = Returns rt1
    ∧ hadoop_configuration rt' = hadoop_configuration rt1
    ∧ (∀ n, Forall (λ secret, secret !! "name" ≠ Some n)
               (config_secrets self) →
            os_environ rt' !! n = os_environ rt1 !! n).
Proof.
  unfold setup. outcome_steps. intros Hrun.
  destruct (setup_storage dbutils self rt) as [rt1|e]; [|discriminate].
  exists rt1. split; [reflexivity|].
  exact (setup_environment_from_frame _ _ _ Hrun).
Qed.

End MoreSetup.

(** * More on the constructor *)

(** X18.  When the constructor succeeds.  It raises the missing-config
    failure when neither package path is given and the staging-prefix
    failure when the pipeline path is usable but the staging prefix is
    not absolute; an empty pipeline path is never accepted.  It returns
    exactly when the pipeline path is a non-empty string and the staging
    prefix starts with a slash, and the launcher then holds the
    pipeline path and the other entries of the configuration
    unchanged. *)
Theorem init_succeeds_exactly_when (cfg : resource_config) :
  (cfg_local_dagster_job_package_path cfg = None →
   cfg_local_pipeline_package_path cfg = None →
   __init__ cfg = Raises (CheckError MISSING_CONFIG))
  ∧ (truthy (cfg_local_pipeline_package_path cfg) = true →
     startswith_slash (cfg_staging_prefix cfg) = false →
     __init__ cfg
     = Raises (CheckError "staging_prefix must be an absolute path"))
  ∧ (cfg_local_pipeline_package_path cfg = Some EmptyString →
     ∃ desc, __init__ cfg = Raises (CheckError desc))
  ∧ (∀ self,
       __init__ cfg = Returns self
       ↔ ∃ c path,
           cfg_local_pipeline_package_path cfg = Some (String c path)
           ∧ startswith_slash (cfg_staging_prefix cfg) = true
           ∧ self
             = mkLauncher (cfg_run_config cfg) (cfg_databricks_host cfg)
                 (cfg_databricks_token cfg)
                 (cfg_secrets_to_env_variables cfg) (cfg_storage cfg)
                 (String c path) (cfg_staging_prefix cfg)
                 (cfg_wait_for_logs cfg)
                 (cfg_max_completion_wait_time_seconds cfg)).
Proof.
  unfold __init__, check_invariant, check_str_param, py_or.
  split; [|split; [|split]].
  - intros -> ->. reflexivity.
  - intros Hpipe Hstag. rewrite Hstag.
    destruct (cfg_local_pipeline_package_path cfg) as [[|c p]|];
      try discriminate.
    destruct (cfg_local_dagster_job_package_path cfg); reflexivity.
  - intros ->.
    destruct (cfg_local_dagster_job_package_path cfg); simpl; eauto.
  - intros self. split.
    + destruct (cfg_local_dagster_job_package_path cfg) as [job|];
        destruct (cfg_local_pipeline_package_path cfg) as [[|c p]|]; simpl;
        try discriminate;
        destruct (startswith_slash (cfg_staging_prefix cfg)); simpl;
        try discriminate;
        intros H; injection H as <-; eauto.
    + intros (c & p & -> & -> & ->).
      destruct (cfg_local_dagster_job_package_path cfg); reflexivity.
Qed.

Lemma init_succeeds_exactly_when_witness :
  __init__ (Fixture.config None None) = Raises (CheckError MISSING_CONFIG)
  ∧ (∃ self, __init__ (Fixture.config (Some "/pipeline") None) = Returns self
             ∧ local_dagster_job_package_path self = "/pipeline")
  ∧ (∃ desc, __init__ (Fixture.config (Some EmptyString) (Some "/job"))
             = Raises (CheckError desc))
  ∧ __init__
      (mkResourceConfig ∅ "host" "token" [] ∅ "staging" false 10
         (Some "/pipeline") None)
    = Raises (CheckError "staging_prefix must be an absolute path").
Proof.
  split; [|split; [|split]].
  - destruct (init_succeeds_exactly_when (Fixture.config None None))
      as (H & _). now apply H.
  - destruct (init_succeeds_exactly_when
                (Fixture.config (Some "/pipeline") None)) as (_ & _ & _ & H).
    eexists. split; [apply H; do 2 eexists; repeat split|]; reflexivity.
  - destruct (init_succeeds_exactly_when
                (Fixture.config (Some EmptyString) (Some "/job")))
      as (_ & _ & H & _). now apply H.
  - destruct (init_succeeds_exactly_when
                (mkResourceConfig ∅ "host" "token" [] ∅ "staging" false 10
                   (Some "/pipeline") None)) as (_ & H & _).
    now apply H.
Defined.

(** X19.  The paths of a launcher that was constructed.  Its staging
    prefix starts with a slash, so every store path it renders starts
    with [dbfs:///] and every local-mount path with [/dbfs//], followed
    by the same text. *)
Theorem constructed_launcher_renders_rooted_paths (cfg : resource_config)
    (self : DatabricksPySparkStepLauncher)
    (run_id step_key filename : string) :
  __init__ cfg = Returns self →
  ∃ rest,
    staging_prefix self = String "/" rest
    ∧ ∃ tail,
        _dbfs_path self run_id step_key filename
        = ("dbfs:///" ++ tail)%string
        ∧ _internal_dbfs_path self run_id step_key filename
          = ("/dbfs//" ++ tail)%string.
Proof.
  intros Hinit.
  assert (Hstag : startswith_slash (staging_prefix self) = true).
  { revert Hinit. unfold __init__, check_invariant, check_str_param, py_or.
    destruct (cfg_local_dagster_job_package_path cfg) as [job|];
      destruct (cfg_local_pipeline_package_path cfg) as [[|c p]|]; simpl;
      try discriminate;
      destruct (startswith_slash (cfg_staging_prefix cfg)) eqn:Hs; simpl;
      try discriminate;
      intros H; injection H as <-; exact Hs. }
  destruct (staging_prefix self) as [|c rest] eqn:Hprefix;
    [discriminate Hstag|].
  simpl in Hstag. apply Ascii.eqb_eq in Hstag. subst c.
  exists rest. split; [reflexivity|].
  unfold _dbfs_path, _internal_dbfs_path, join_slash. rewrite Hprefix.
  eexists. split; reflexivity.
Qed.

Lemma constructed_launcher_renders_rooted_paths_witness :
  ∃ self rest tail,
    __init__ (Fixture.config (Some "/pipeline") None) = Returns self
    ∧ staging_prefix self = String "/" rest
    ∧ _dbfs_path self "r" "s" "x.bin" = ("dbfs:///" ++ tail)%string
    ∧ _internal_dbfs_path self "r" "s" "x.bin" = ("/dbfs//" ++ tail)%string.
Proof.
  destruct (__init__ (Fixture.config (Some "/pipeline") None))
    as [self|e] eqn:Hinit; [|discriminate Hinit].
  destruct (constructed_launcher_renders_rooted_paths _ self "r" "s" "x.bin"
              Hinit) as (rest & Hprefix & tail & Hstore & Hmount).
  exists self, rest, tail. repeat split; assumption.
Defined.

(** * The further properties at concrete inputs *)

Lemma empty_file_is_an_empty_batch_witness :
  get_new_events Fixture.deserialize_value Fixture.pickle_loads
    (Fixture.fixed_log_world [] 0) Fixture.self "r" "s" 4 counters0
  = (Ret ([], 4), bump_read counters0, [AReadFile Fixture.events_path]).
Proof.
  apply (empty_file_is_an_empty_batch Fixture.deserialize_value
           Fixture.pickle_loads Fixture.self (Fixture.fixed_log_world [] 0)
           "r" "s" 4 counters0 eq_refl).
Defined.

Lemma offset_only_moves_forward_witness :
  (3 = -1 ∨ (1 ≤ 3 ∧ Z.of_nat (length ["b"]) ≤ 3 - 1))
  ∧ (-1 = -1 ∨ (0 ≤ -1 ∧ Z.of_nat (length ["a"]) ≤ -1 - 0)).
Proof.
  split.
  - apply (offset_only_moves_forward Fixture.deserialize_value
             Fixture.pickle_loads Fixture.self
             (Fixture.fixed_log_world [Byte.x02; Byte.x01; Byte.x03] 0)
             "r" "s" 1 counters0 ["b"] 3 _ _ ltac:(lia) eq_refl).
  - apply (offset_only_moves_forward Fixture.deserialize_value
             Fixture.pickle_loads Fixture.self
             (Fixture.fixed_log_world [Byte.x02; Byte.x00] 0)
             "r" "s" 0 counters0 ["a"] (-1) _ _ ltac:(lia) eq_refl).
Defined.

Lemma failures_then_not_yet_written_witness :
  let e1 := HTTPError (JsonObject None) in
  let e2 := Exception "connection reset" in
  get_new_events Fixture.deserialize_value Fixture.pickle_loads
    (Fixture.flaky_world [e1] []) Fixture.self "r" "s" 2 counters0
  = (Ret ([], 2), bump_read (bump_read counters0),
     [AReadFile Fixture.events_path; ALog (LogWarnReadException e1);
      AReadFile Fixture.events_path])
  ∧ get_new_events Fixture.deserialize_value Fixture.pickle_loads
      (Fixture.flaky_world
         [e1; e2; HTTPError (JsonObject (Some RESOURCE_DOES_NOT_EXIST))]
         [Byte.x02])
      Fixture.self "r" "s" 2 counters0
    = (Ret ([], 2), bump_read (bump_read (bump_read counters0)),
       [AReadFile Fixture.events_path; ALog (LogWarnReadException e1);
        AReadFile Fixture.events_path; ALog (LogWarnReadException e2);
        AReadFile Fixture.events_path]).
Proof.
  intros e1 e2. split.
  - destruct (failures_then_not_yet_written Fixture.deserialize_value
                Fixture.pickle_loads Fixture.self
                (Fixture.flaky_world [e1] []) "r" "s" 2 counters0 e1
                eq_refl eq_refl) as (Hone & _).
    apply Hone. right. reflexivity.
  - destruct (failures_then_not_yet_written Fixture.deserialize_value
                Fixture.pickle_loads Fixture.self
                (Fixture.flaky_world
                   [e1; e2;
                    HTTPError (JsonObject (Some RESOURCE_DOES_NOT_EXIST))]
                   [Byte.x02])
                "r" "s" 2 counters0 e1 eq_refl eq_refl) as (_ & Htwo).
    apply (Htwo e2 eq_refl eq_refl). left. reflexivity.
Defined.

Lemma cycles_compose_over_appended_log_witness :
  let raw1 := [Byte.x02; Byte.x01] in
  let raw2 := [Byte.x02; Byte.x01; Byte.x03; Byte.x00] in
  let W := Fixture.growing_log_world raw1 raw2 in
  ∃ batch1 batch2 offset1 offset2 emits1 emits2,
    get_new_events Fixture.deserialize_value Fixture.pickle_loads W
      Fixture.self "r" "s" 0 counters0
    = (Ret (batch1, offset1), bump_read counters0,
       AReadFile Fixture.events_path :: emits1)
    ∧ get_new_events Fixture.deserialize_value Fixture.pickle_loads W
        Fixture.self "r" "s" offset1 (bump_read counters0)
      = (Ret (batch2, offset2), bump_read (bump_read counters0),
         AReadFile Fixture.events_path :: emits2)
    ∧ get_new_events Fixture.deserialize_value Fixture.pickle_loads
        (Fixture.fixed_log_world raw2 0) Fixture.self "r" "s" 0 counters0
      = (Ret (batch1 ++ batch2, offset2), bump_read counters0,
         AReadFile Fixture.events_path :: emits1 ++ emits2)
    ∧ batch1 ++ batch2 = ["a"; "b"].
Proof.
  intros raw1 raw2 W.
  destruct (cycles_compose_over_appended_log Fixture.deserialize_value
              Fixture.pickle_loads Fixture.self W "r" "s" counters0 raw1 raw2
              [Wrapped Fixture.event_b; LOGS_COMPLETE] 0
              eq_refl eq_refl ltac:(discriminate) ltac:(discriminate)
              eq_refl ltac:(vm_compute; split; discriminate) eq_refl)
    as (b1 & b2 & o1 & o2 & e1 & e2 & H1 & Ho1 & H2 & Hboth).
  exists b1, b2, o1, o2, e1, e2.
  split; [exact H1|]. split; [exact H2|].
  assert (Hone := Hboth (Fixture.fixed_log_world raw2 0) counters0 eq_refl).
  split; [exact Hone|].
  vm_compute in Hone. now injection Hone as -> _.
Defined.

Lemma failed_status_query_ends_the_generator_witness :
  let e := DatabricksError "run failed" in
  let W :=
    Fixture.scripted_world (fun _ => Returns [Byte.x02; Byte.x03])
      (fun i => match i with O => Returns false | S _ => Raises e end)
      (fun _ => Returns tt) in
  ∃ c' t,
    step_events_iterator Fixture.deserialize_value Fixture.pickle_loads W
      Fixture.self 5 "s" "r" 7 counters0
    = (Raise e, c', t)
    ∧ yields t = ["a"; "b"]
    ∧ n_poll c' = 2%nat
    ∧ n_read c' = 2%nat
    ∧ n_time c' = 1%nat.
Proof.
  intros e W.
  apply (failed_status_query_ends_the_generator Fixture.deserialize_value
           Fixture.pickle_loads W Fixture.self "r" "s" 7
           [Byte.x02; Byte.x03] 1 5 counters0 e).
  - intros i. reflexivity.
  - discriminate.
  - reflexivity.
  - intros [|i] Hi; [reflexivity | lia].
  - reflexivity.
  - intros i Hi. reflexivity.
  - lia.
Defined.

Lemma interrupted_sleep_ends_the_generator_witness :
  let e := DagsterExecutionInterruptedError in
  let W :=
    Fixture.scripted_world (fun _ => Returns [Byte.x02; Byte.x03])
      (fun _ => Returns false)
      (fun i => match i with O => Returns tt | S _ => Raises e end) in
  ∃ c' t,
    step_events_iterator Fixture.deserialize_value Fixture.pickle_loads W
      Fixture.self 5 "s" "r" 7 counters0
    = (Raise e, c', t)
    ∧ yields t = ["a"; "b"]
    ∧ n_poll c' = 1%nat
    ∧ n_read c' = 1%nat.
Proof.
  intros e W.
  apply (interrupted_sleep_ends_the_generator Fixture.deserialize_value
           Fixture.pickle_loads W Fixture.self "r" "s" 7
           [Byte.x02; Byte.x03] 1 5 counters0 e).
  - intros i. reflexivity.
  - discriminate.
  - reflexivity.
  - intros i Hi. reflexivity.
  - intros [|i] Hi; [reflexivity | lia].
  - reflexivity.
  - lia.
Defined.

Lemma log_completed_after_the_job_is_awaited_witness :
  let raw1 := [Byte.x02; Byte.x01] in
  let raw2 := [Byte.x02; Byte.x01; Byte.x03; Byte.x00] in
  ∃ c' t,
    step_events_iterator Fixture.deserialize_value Fixture.pickle_loads
      (Fixture.growing_log_world raw1 raw2) Fixture.self 1 "s" "r" 7
      counters0
    = (Ret tt, c', t)
    ∧ yields t = ["a"; "b"]
    ∧ n_poll c' = 1%nat
    ∧ n_read c' = 2%nat.
Proof.
  intros raw1 raw2.
  apply (log_completed_after_the_job_is_awaited Fixture.deserialize_value
           Fixture.pickle_loads (Fixture.growing_log_world raw1 raw2)
           Fixture.self "r" "s" 7 raw1 raw2
           [Fixture.event_a; Fixture.plain_record] [Fixture.event_b] 1
           counters0);
    try reflexivity; try discriminate; lia.
Defined.

Lemma failed_upload_submits_nothing_witness :
  launch_step Fixture.deserialize_value Fixture.pickle_loads
    Fixture.main_file (Fixture.failing_put_world 1) Fixture.self 5 "r" "s"
    counters0
  = (Raise (HTTPError (JsonObject None)), mkCounters 0 2 0 0 0,
     [ALog (LogInfo "Uploading main file to DBFS");
      APutFile "dbfs:///dagster_staging/r/s/databricks_step_main.py";
      ALog (LogInfo "Uploading dagster job to DBFS");
      APutFile "dbfs:///dagster_staging/r/s/code.zip"]).
Proof.
  apply (failed_upload_submits_nothing Fixture.deserialize_value
           Fixture.pickle_loads Fixture.main_file
           (Fixture.failing_put_world 1) Fixture.self "r" "s" 5 counters0 1
           (HTTPError (JsonObject None))).
  - lia.
  - intros [|j] Hj; [reflexivity | lia].
  - reflexivity.
Defined.

Lemma failed_submission_is_not_polled_witness :
  launch_step Fixture.deserialize_value Fixture.pickle_loads
    Fixture.main_file Fixture.failing_submit_world Fixture.self 5 "r" "s"
    counters0
  = (Raise (HTTPError (JsonObject None)), mkCounters 0 4 0 0 0,
     submitted Fixture.main_file Fixture.self "r" "s").
Proof.
  apply (failed_submission_is_not_polled Fixture.deserialize_value
           Fixture.pickle_loads Fixture.main_file
           Fixture.failing_submit_world Fixture.self "r" "s" 5 counters0
           (HTTPError (JsonObject None)) (λ _ _, eq_refl) eq_refl).
Defined.

Lemma no_retrieval_without_wait_for_logs_witness :
  let W := Fixture.failing_retrieval_world [Byte.x02; Byte.x00] in
  let run :=
    step_events_iterator Fixture.deserialize_value Fixture.pickle_loads W
      Fixture.self_without_logs 1 "s" "r" 7 (mkCounters 0 4 0 0 0) in
  launch_step Fixture.deserialize_value Fixture.pickle_loads
    Fixture.main_file W Fixture.self_without_logs 1 "r" "s" counters0
  = (Ret tt, run.1.2,
     submitted Fixture.main_file Fixture.self_without_logs "r" "s" ++ run.2).
Proof.
  exact (no_retrieval_without_wait_for_logs Fixture.deserialize_value
           Fixture.pickle_loads Fixture.main_file
           (Fixture.failing_retrieval_world [Byte.x02; Byte.x00])
           Fixture.self_without_logs "r" "s" 1 counters0 7 eq_refl
           (λ _ _, eq_refl) eq_refl).
Defined.

Lemma task_refers_to_uploaded_files_witness :
  let task := _get_databricks_task Fixture.main_file Fixture.self "r" "s" in
  python_file task = "dbfs:///dagster_staging/r/s/databricks_step_main.py"
  ∧ parameters task
    = ["/dbfs//dagster_staging/r/s/step_run_ref.pkl";
       "/dbfs//dagster_staging/r/s/config.pkl";
       "/dbfs//dagster_staging/r/s/code.zip"]
  ∧ ∃ c' t,
      _upload_artifacts (Ev := string) Fixture.main_file
        (Fixture.fixed_log_world [] 0) Fixture.self "r" "s" counters0
      = (Ret tt, c', t)
      ∧ In (APutFile (python_file task)) t.
Proof.
  intros task. split; [reflexivity|]. split; [reflexivity|].
  destruct (task_refers_to_uploaded_files (Ev := string) Fixture.main_file
              (Fixture.fixed_log_world [] 0) Fixture.self "r" "s" counters0
              (λ _ _, eq_refl)) as (c' & t & Hup & Hin & _).
  exists c', t. split; assumption.
Defined.

Lemma exported_secrets_follow_the_list_witness :
  let self :=
    mkDatabricksConfig ∅
      [Fixture.secret "TOKEN" "old"; Fixture.secret "USER" "u";
       Fixture.secret "TOKEN" "new"] in
  ∃ rt',
    setup_environment Fixture.dbutils_secrets self Fixture.runtime0
    = Returns rt'
    ∧ os_environ rt' !! "TOKEN" = Some "secret-of-new"
    ∧ os_environ rt' !! "HOME" = None.
Proof.
  intros self.
  destruct (setup_environment Fixture.dbutils_secrets self Fixture.runtime0)
    as [rt'|e] eqn:Hrun; [|discriminate Hrun].
  destruct (exported_secrets_follow_the_list Fixture.dbutils_secrets self
              Fixture.runtime0 rt' Hrun) as (_ & Hother & Hlast).
  exists rt'. split; [reflexivity|]. split.
  - apply (Hlast [Fixture.secret "TOKEN" "old"; Fixture.secret "USER" "u"]
             (Fixture.secret "TOKEN" "new") [] "TOKEN" "new" "dagster");
      try reflexivity. constructor.
  - rewrite Hother; [reflexivity|].
    repeat constructor; discriminate.
Defined.

Lemma storage_setup_writes_only_its_keys_witness :
  let self := mkDatabricksConfig (<["s3" := Fixture.s3_storage]> ∅) [] in
  let rt := mkRuntime (<["spark.app.name" := "step"]> ∅) ∅ in
  ∃ rt',
    setup_storage Fixture.dbutils_secrets self rt = Returns rt'
    ∧ os_environ rt' !! "AWS_ACCESS_KEY_ID"
      = hadoop_configuration rt' !! "fs.s3n.awsAccessKeyId"
    ∧ hadoop_configuration rt' !! "spark.app.name" = Some "step".
Proof.
  intros self rt.
  destruct (setup_storage Fixture.dbutils_secrets self rt) as [rt'|e]
    eqn:Hrun; [|discriminate Hrun].
  destruct (storage_setup_writes_only_its_keys Fixture.dbutils_secrets self
              rt rt' Hrun) as (Hs3 & _).
  destruct Hs3 as (_ & _ & Hsame & _ & Hhadoop & _);
    [eexists; reflexivity|].
  exists rt'. split; [reflexivity|]. split; [exact Hsame|].
  rewrite Hhadoop by discriminate. reflexivity.
Defined.

Lemma broken_s3_binding_fails_the_setup_witness :
  let self :=
    mkDatabricksConfig
      (<["s3" := ∅]> (<["adls2" := Fixture.adls2_storage]> ∅))
      [Fixture.secret "TOKEN" "t"] in
  setup_storage Fixture.dbutils_secrets self Fixture.runtime0
  = Raises (KeyError "secret_scope")
  ∧ setup Fixture.dbutils_secrets self Fixture.runtime0
    = Raises (KeyError "secret_scope").
Proof.
  intros self.
  destruct (broken_s3_binding_fails_the_setup Fixture.dbutils_secrets self
              Fixture.runtime0 ∅ eq_refl) as (Hscope & _ & Hsetup).
  split; [apply Hscope; reflexivity|].
  apply Hsetup, Hscope. reflexivity.
Defined.

Lemma secrets_keep_the_storage_credentials_witness :
  let self :=
    mkDatabricksConfig (<["s3" := Fixture.s3_storage]> ∅)
      [Fixture.secret "fs.s3n.awsAccessKeyId" "x"] in
  ∃ rt' rt1,
    setup Fixture.dbutils_secrets self Fixture.runtime0 = Returns rt'
    ∧ setup_storage Fixture.dbutils_secrets self Fixture.runtime0
      = Returns rt1
    ∧ hadoop_configuration rt' = hadoop_configuration rt1.
Proof.
  intros self.
  destruct (setup Fixture.dbutils_secrets self Fixture.runtime0) as [rt'|e]
    eqn:Hrun; [|discriminate Hrun].
  destruct (secrets_keep_the_storage_credentials Fixture.dbutils_secrets
              self Fixture.runtime0 rt' Hrun) as (rt1 & Hstorage & Hh & _).
  exists rt', rt1. repeat split; assumption.
Defined.
